(** * Recipe service: a shallow embedding of [server.js]

    The service has three request handlers that talk to an inference
    provider: [/api/analyze-image], [/api/generate-recipe] and
    [/api/find-recipe-video].  This development embeds the string
    operations the handlers rely on (split, trim, template literals,
    [encodeURIComponent]), the upload middleware, the staged-file store
    and the handlers themselves, and proves the properties the
    specification states about them. *)

From stdpp Require Import gmap strings list fin_maps.
From Stdlib Require Import NArith Ascii.

(** ** JavaScript strings

    A JavaScript string is a sequence of UTF-16 code units.  The literals
    of [server.js] are all ASCII; [lit] turns such a literal into its code
    units. *)

Abbreviation jsstring := (list N).

Definition lit (s : string) : jsstring :=
  map N_of_ascii (String.list_ascii_of_string s).

Definition comma : N := 44.
Definition line_feed : N := 10.
Definition double_quote : N := 34.

(** [WhiteSpace] and [LineTerminator] of ECMAScript: what
    [String.prototype.trim] strips.  All of them are single code units. *)
Definition is_white_space (c : N) : bool :=
  ((0x09 <=? c) && (c <=? 0x0D) || (c =? 0x20) || (c =? 0xA0)
   || (c =? 0x1680) || (0x2000 <=? c) && (c <=? 0x200A)
   || (c =? 0x2028) || (c =? 0x2029) || (c =? 0x202F) || (c =? 0x205F)
   || (c =? 0x3000) || (c =? 0xFEFF))%N.

(** [s.split(sep)] for a separator of one code unit. *)
Fixpoint split (sep : N) (s : jsstring) : list jsstring :=
  match s with
  | [] => [[]]
  | c :: s' =>
      if (c =? sep)%N then [] :: split sep s'
      else match split sep s' with
           | [] => [[c]]
           | f :: fs => (c :: f) :: fs
           end
  end.

(** [a.join(sep)] on an array of strings, [sep] of one code unit. *)
Fixpoint join (sep : N) (l : list jsstring) : jsstring :=
  match l with
  | [] => []
  | f :: fs =>
      match fs with
      | [] => f
      | _ :: _ => f ++ sep :: join sep fs
      end
  end.

Fixpoint trim_start (s : jsstring) : jsstring :=
  match s with
  | [] => []
  | c :: s' => if is_white_space c then trim_start s' else s
  end.

Definition trim_end (s : jsstring) : jsstring :=
  reverse (trim_start (reverse s)).

(** [s.trim()] *)
Definition trim (s : jsstring) : jsstring := trim_end (trim_start s).

(** [s.startsWith(p)] *)
Fixpoint starts_with (p s : jsstring) : bool :=
  match p, s with
  | [], _ => true
  | _ :: _, [] => false
  | a :: p', b :: s' => (a =? b)%N && starts_with p' s'
  end.

(** [s.includes(p)] *)
Fixpoint includes (p s : jsstring) : bool :=
  starts_with p s ||
  match s with
  | [] => false
  | _ :: s' => includes p s'
  end.

(** ** The ingredient parser of [/api/analyze-image]

    [text.split(',').map(item => item.trim()).filter(item => item.length > 0)] *)
Definition parse_ingredients (text : jsstring) : list jsstring :=
  List.filter (fun item => 0 <? List.length item)
    (map (fun item => trim item) (split comma text)).

(** *** What the specification says the parser computes

    The specification's words, as relations that do not mention the
    functions above: the fields of a text split on commas, a token with
    its surrounding white space removed, and the parsed list. *)
Module Spec.

Definition split_on (sep : N) (text : jsstring) (fields : list jsstring) : Prop :=
  fields ≠ [] ∧ join sep fields = text ∧ Forall (fun f => sep ∉ f) fields.

Definition all_white (s : jsstring) : Prop :=
  Forall (fun c => is_white_space c = true) s.

Definition no_white_ends (t : jsstring) : Prop :=
  (∀ c, head t = Some c → is_white_space c = false) ∧
  (∀ c, last t = Some c → is_white_space c = false).

Definition trimmed (tok t : jsstring) : Prop :=
  ∃ l r, tok = l ++ t ++ r ∧ all_white l ∧ all_white r ∧ no_white_ends t.

Definition parsed (text : jsstring) (result : list jsstring) : Prop :=
  ∃ fields toks,
    split_on comma text fields ∧
    Forall2 trimmed fields toks ∧
    result = List.filter (fun t => negb (bool_decide (t = []))) toks.

End Spec.

(** ** JavaScript values

    The values a parsed JSON body can hold, which are also the values the
    handlers put in their JSON responses.  A number is kept by what the
    handlers can observe of it: whether it is falsy ([0], [-0] or [NaN])
    and the string [ToString] gives it. *)
#[warnings="-register-all"]
Inductive value : Type :=
| VUndefined
| VNull
| VBool (b : bool)
| VNumber (falsy : bool) (text : jsstring)
| VString (s : jsstring)
| VArray (items : list value)
| VObject (fields : list (string * value)).

(** [ToBoolean] *)
Definition truthy (v : value) : bool :=
  match v with
  | VUndefined | VNull => false
  | VBool b => b
  | VNumber falsy _ => negb falsy
  | VString s => 0 <? List.length s
  | VArray _ | VObject _ => true
  end.

(** The string that the conversion to string gives a value, for every
    value it gives one; [ToString] below is the conversion itself, which
    throws on some objects, and returns this string whenever it returns. *)
Fixpoint to_string (v : value) : jsstring :=
  match v with
  | VUndefined => lit "undefined"
  | VNull => lit "null"
  | VBool true => lit "true"
  | VBool false => lit "false"
  | VNumber _ text => text
  | VString s => s
  | VArray items =>
      join comma
        (map (fun e => match e with
                       | VUndefined | VNull => []
                       | _ => to_string e
                       end) items)
  | VObject _ => lit "[object Object]"
  end.

(** [v !== 'literal'] *)
Definition strict_ne (v : value) (s : jsstring) : bool :=
  match v with
  | VString t => negb (bool_decide (t = s))
  | _ => true
  end.

(** A property of a parsed body; a missing property reads as [undefined]. *)
Definition prop (body : gmap string value) (key : string) : value :=
  default VUndefined (body !! key).

(** ** Exceptions *)

Record exn := Error { message : jsstring }.

Inductive result (A : Type) : Type :=
| Ok (a : A)
| Throw (e : exn).
Arguments Ok {A} a.
Arguments Throw {A} e.

#[export] Instance result_ret : MRet result := λ A a, Ok a.
#[export] Instance result_bind : MBind result := λ A B k r,
  match r with
  | Ok a => k a
  | Throw e => Throw e
  end.

(** ** [ToString], as a template literal applies it to [${v}]

    Primitives have their usual spelling.  An array is joined with
    commas, each element converted in turn, [null] and [undefined]
    counting as the empty string.  A plain object gives
    ["[object Object]"] through [Object.prototype.toString], unless it
    has a [toString] property of its own: a value parsed from JSON is
    never a function, so neither that property nor [valueOf] yields a
    primitive, and the conversion throws a [TypeError]. *)
Definition type_error : exn :=
  Error (lit "Cannot convert object to primitive value").

Definition has_own (key : string) (fields : list (string * value)) : bool :=
  existsb (λ field, String.eqb (fst field) key) fields.

Fixpoint ToString (v : value) : result jsstring :=
  match v with
  | VUndefined => Ok (lit "undefined")
  | VNull => Ok (lit "null")
  | VBool true => Ok (lit "true")
  | VBool false => Ok (lit "false")
  | VNumber _ text => Ok text
  | VString s => Ok s
  | VArray items =>
      match
        (fix elements (l : list value) : result (list jsstring) :=
           match l with
           | [] => Ok []
           | e :: l' =>
               match
                 match e with
                 | VUndefined | VNull => Ok []
                 | _ => ToString e
                 end
               with
               | Ok s =>
                   match elements l' with
                   | Ok ss => Ok (s :: ss)
                   | Throw x => Throw x
                   end
               | Throw x => Throw x
               end
           end) items
      with
      | Ok strings => Ok (join comma strings)
      | Throw x => Throw x
      end
  | VObject fields =>
      if has_own "toString" fields then Throw type_error
      else Ok (lit "[object Object]")
  end.

(** The values [ToString] converts without throwing. *)
Fixpoint convertible (v : value) : bool :=
  match v with
  | VArray items => forallb convertible items
  | VObject fields => negb (has_own "toString" fields)
  | _ => true
  end.

(** ** [encodeURIComponent]

    ECMAScript's [Encode] with the unreserved set of
    [encodeURIComponent]: letters, digits and [-_.!~*'()] stay; any other
    code point is written as the percent-escaped octets of its UTF-8
    form; an unpaired surrogate throws a [URIError]. *)
Definition is_uri_unreserved (c : N) : bool :=
  ((65 <=? c) && (c <=? 90) || (97 <=? c) && (c <=? 122)
   || (48 <=? c) && (c <=? 57)
   || bool_decide (c ∈ lit "-_.!~*'()"))%N.

Definition hex_digit (n : N) : N :=
  (if n <? 10 then 48 + n else 55 + n)%N.

Definition percent_octet (b : N) : jsstring :=
  [37; hex_digit (N.shiftr b 4); hex_digit (N.land b 15)]%N.

Definition utf8_octets (cp : N) : list N :=
  (if cp <? 0x80 then [cp]
   else if cp <? 0x800 then
     [N.lor 0xC0 (N.shiftr cp 6); N.lor 0x80 (N.land cp 0x3F)]
   else if cp <? 0x10000 then
     [N.lor 0xE0 (N.shiftr cp 12);
      N.lor 0x80 (N.land (N.shiftr cp 6) 0x3F);
      N.lor 0x80 (N.land cp 0x3F)]
   else
     [N.lor 0xF0 (N.shiftr cp 18);
      N.lor 0x80 (N.land (N.shiftr cp 12) 0x3F);
      N.lor 0x80 (N.land (N.shiftr cp 6) 0x3F);
      N.lor 0x80 (N.land cp 0x3F)])%N.

Definition is_lead_surrogate (c : N) : bool := ((0xD800 <=? c) && (c <=? 0xDBFF))%N.
Definition is_trail_surrogate (c : N) : bool := ((0xDC00 <=? c) && (c <=? 0xDFFF))%N.

Definition surrogate_pair (lead trail : N) : N :=
  ((lead - 0xD800) * 0x400 + (trail - 0xDC00) + 0x10000)%N.

Definition escape_code_point (cp : N) : jsstring :=
  concat (map percent_octet (utf8_octets cp)).

Definition uri_error : exn := Error (lit "URI malformed").

Fixpoint encodeURIComponent (s : jsstring) : result jsstring :=
  match s with
  | [] => Ok []
  | c :: s' =>
      if is_uri_unreserved c then
        match encodeURIComponent s' with
        | Ok r => Ok (c :: r)
        | Throw e => Throw e
        end
      else if is_lead_surrogate c then
        match s' with
        | d :: s'' =>
            if is_trail_surrogate d then
              match encodeURIComponent s'' with
              | Ok r => Ok (escape_code_point (surrogate_pair c d) ++ r)
              | Throw e => Throw e
              end
            else Throw uri_error
        | [] => Throw uri_error
        end
      else if is_trail_surrogate c then Throw uri_error
      else
        match encodeURIComponent s' with
        | Ok r => Ok (escape_code_point c ++ r)
        | Throw e => Throw e
        end
  end.

(** ** [buffer.toString('base64')] *)
Definition base64_char (n : N) : N :=
  (if n <? 26 then 65 + n
   else if n <? 52 then 97 + (n - 26)
   else if n <? 62 then 48 + (n - 52)
   else if n =? 62 then 43 else 47)%N.

Fixpoint base64 (bytes : list N) : jsstring :=
  match bytes with
  | [] => []
  | [a] =>
      [base64_char (N.shiftr a 2);
       base64_char (N.shiftl (N.land a 3) 4); 61; 61]%N
  | [a; b] =>
      [base64_char (N.shiftr a 2);
       base64_char (N.lor (N.shiftl (N.land a 3) 4) (N.shiftr b 4));
       base64_char (N.shiftl (N.land b 15) 2); 61]%N
  | a :: b :: c :: rest =>
      [base64_char (N.shiftr a 2);
       base64_char (N.lor (N.shiftl (N.land a 3) 4) (N.shiftr b 4));
       base64_char (N.lor (N.shiftl (N.land b 15) 2) (N.shiftr c 6));
       base64_char (N.land c 63)]%N ++ base64 rest
  end.

(** ** The world a request runs in

    The staging directory of the uploads, the calls made to the inference
    provider (oldest first) and what [console.error] printed: for each
    call the label it was given, empty when it was given the error
    alone, and the error. *)
Inductive part : Type :=
| TextPart (text : jsstring)
| InlineData (mimeType data : jsstring).

Record world := World {
  files : gmap string (list N);
  provider_calls : list (list part);
  console : list (jsstring * exn);
}.

Definition set_files (fs : gmap string (list N)) (w : world) : world :=
  {| files := fs; provider_calls := provider_calls w; console := console w |}.

Definition log_call (request : list part) (w : world) : world :=
  {| files := files w;
     provider_calls := provider_calls w ++ [request];
     console := console w |}.

Definition log_error (label : string) (error : exn) (w : world) : world :=
  {| files := files w;
     provider_calls := provider_calls w;
     console := console w ++ [(lit label, error)] |}.

(** Computations that read and change the world and may throw. *)
Definition M (A : Type) : Type := world → result A * world.

#[export] Instance M_ret : MRet M := λ A a w, (Ok a, w).
#[export] Instance M_bind : MBind M := λ A B k m w,
  match m w with
  | (Ok a, w') => k a w'
  | (Throw e, w') => (Throw e, w')
  end.

Definition throw {A} (e : exn) : M A := λ w, (Throw e, w).

(** [try { m } catch (error) { handler error }] *)
Definition try_catch {A} (m : M A) (handler : exn → M A) : M A := λ w,
  match m w with
  | (Ok a, w') => (Ok a, w')
  | (Throw e, w') => handler e w'
  end.

(** A computation without effects that may throw. *)
Definition lift {A} (r : result A) : M A := λ w, (r, w).

Definition enoent (syscall : string) (path : string) : exn :=
  Error (lit "ENOENT: no such file or directory, " ++ lit syscall
         ++ lit " '" ++ lit path ++ lit "'").

(** [fs.readFileSync(path)] *)
Definition readFileSync (path : string) : M (list N) := λ w,
  match files w !! path with
  | Some data => (Ok data, w)
  | None => (Throw (enoent "open" path), w)
  end.

(** [fs.unlinkSync(path)] *)
Definition unlinkSync (path : string) : M unit := λ w,
  match files w !! path with
  | Some _ => (Ok tt, set_files (delete path (files w)) w)
  | None => (Throw (enoent "unlink" path), w)
  end.

Definition writeFile (path : string) (data : list N) : M unit := λ w,
  (Ok tt, set_files (<[path := data]> (files w)) w).

(** [console.error(label, error)] *)
Definition console_error (label : string) (error : exn) : M unit := λ w,
  (Ok tt, log_error label error w).

(** The helper [removeFile] of [server.js]: an unlink whose failure is
    logged and swallowed.  No handler calls it. *)
Definition removeFile (filePath : string) : M unit :=
  try_catch (unlinkSync filePath)
            (λ err, console_error "Error removing file:" err).

(** The inference provider is a black box: for the parts it is sent it
    either answers a text or throws.  [generateContent] stands for
    [model.generateContent(...)], [result.response] and
    [response.text()] together; a prompt given as one string is the
    request of that single text part. *)
Definition generateContent (provider : list part → result jsstring)
    (request : list part) : M jsstring := λ w,
  (provider request, log_call request w).

(** ** Responses *)
Inductive response_body : Type :=
| Json (v : value)
| ErrorPage (e : exn).

Record response := Response { status : nat; content : response_body }.

(** [res.status(code).json(obj)]; [res.json(obj)] answers 200. *)
Definition json (code : nat) (fields : list (string * value)) : response :=
  Response code (Json (VObject fields)).

Definition str (s : string) : value := VString (lit s).

(** ** The upload middleware

    [multer({storage, limits: {fileSize}, fileFilter})] and its
    [.single('image')]: the file part of the form is passed to the
    filter, counted against the size limit while it is written, and
    ends up as [req.file].  A filter error and a file over the limit
    both end the middleware with an error, and leave nothing behind in
    the staging directory.  (Whether a file of exactly [fileSize] bytes
    still passes depends on the version of the multipart parser
    underneath; it passes here, and no statement below is about that
    size.) *)
Record file_part := FilePart {
  originalname : jsstring;
  part_mimetype : jsstring;
  part_data : list N;
}.

Record upload_request := UploadRequest {
  image : option file_part;
  (* where the disk storage puts the file: the uploads directory and the
     name its [filename] callback makes up *)
  destination : string;
}.

(** [req.file] *)
Record file := File { path : string; mimetype : jsstring }.

Record multer_options := Multer {
  limits_fileSize : N;
  fileFilter : file_part → result bool;
}.

Definition single (options : multer_options) (req : upload_request)
    : M (option file) :=
  match image req with
  | None => mret None
  | Some p =>
      match fileFilter options p with
      | Throw e => throw e
      | Ok false => mret None
      | Ok true =>
          if (limits_fileSize options <? N.of_nat (List.length (part_data p)))%N
          then throw (Error (lit "File too large"))
          else
            writeFile (destination req) (part_data p);;
            mret (Some (File (destination req) (part_mimetype p)))
      end
  end.

(** The [upload] of [server.js]. *)
Definition upload : multer_options :=
  {| limits_fileSize := 10 * 1024 * 1024;
     fileFilter := λ file,
       if starts_with (lit "image/") (part_mimetype file)
       then Ok true
       else Throw (Error (lit "Not an image! Please upload an image file.")) |}.

(** ** [POST /api/analyze-image] *)

Definition analyze_instruction : jsstring :=
  lit "Analyze this food image and list all visible ingredients. Return just the ingredient names as a simple comma-separated list, with no additional formatting or explanation.".

Definition analyze_image (provider : list part → result jsstring)
    (req_file : option file) : M response :=
  try_catch
    (match req_file with
     | None => mret (json 400 [("error", str "No image file provided")])
     | Some file =>
         imageBuffer ← readFileSync (path file);
         let base64Image := base64 imageBuffer in
         text ← generateContent provider
                  [TextPart analyze_instruction;
                   InlineData (mimetype file) base64Image];
         let ingredients := parse_ingredients text in
         unlinkSync (path file);;
         mret (json 200 [("ingredients", VArray (map VString ingredients))])
     end)
    (λ error,
       console_error "Error analyzing image:" error;;
       mret (json 500 [("error", str "Failed to analyze image");
                       ("details", VString (message error))])).

(** What the framework does when a middleware ends with an error and
    the application registers no error handler, as here: it answers
    with the error's [status] or [statusCode] if it has one, else 500,
    and its own error page, and writes the error to [console.error]
    (in every environment but ['test']).  The errors of [single] have
    neither status. *)
Definition default_error_handler (e : exn) (w : world) : response * world :=
  (Response 500 (ErrorPage e), log_error "" e w).

(** The route: [app.post('/api/analyze-image', upload.single('image'), handler)]. *)
Definition post_analyze_image (provider : list part → result jsstring)
    (req : upload_request) (w : world) : response * world :=
  match single upload req w with
  | (Throw e, w') => default_error_handler e w'
  | (Ok req_file, w') =>
      match analyze_image provider req_file w' with
      | (Ok res, w'') => (res, w'')
      | (Throw e, w'') => default_error_handler e w''
      end
  end.

(** ** [POST /api/generate-recipe] *)

Definition unlines (lines : list jsstring) : jsstring := join line_feed lines.

Definition cuisine_clause (cuisine : value) : jsstring :=
  if truthy cuisine && strict_ne cuisine (lit "Any")
  then lit "The cuisine should be " ++ to_string cuisine ++ lit "."
  else lit "".

Definition dietary_clause (dietaryRestrictions : value) : jsstring :=
  if truthy dietaryRestrictions && strict_ne dietaryRestrictions (lit "None")
  then lit "Please ensure the recipe is " ++ to_string dietaryRestrictions ++ lit "."
  else lit "".

Definition recipe_sections : list jsstring :=
  [ lit "      ";
    lit "      Format the recipe with these sections:";
    lit "      - Recipe Name";
    lit "      - Ingredients (with measurements)";
    lit "      - Instructions (step-by-step)";
    lit "      - Cooking Time";
    lit "      - Servings";
    lit "      - Dietary Information";
    lit "      - Tips and Variations";
    lit "      - Nutritional Information (approximate)";
    lit "      ";
    lit "      Be creative but practical, and make sure all the provided ingredients are used." ].

(** The text of the prompt for given field values, when the fields it
    interpolates convert to strings; [recipe_template] below is the
    evaluation of the template literal, which throws when one does not. *)
Definition recipe_prompt (ingredients cuisine dietaryRestrictions : value) : jsstring :=
  unlines
    ([ lit "Create a detailed recipe using these ingredients: "
         ++ to_string ingredients ++ lit ".";
       lit "      " ++ cuisine_clause cuisine;
       lit "      " ++ dietary_clause dietaryRestrictions ]
     ++ recipe_sections).

(** The prompt around the ingredients it quotes. *)
Definition recipe_prompt_head : jsstring :=
  lit "Create a detailed recipe using these ingredients: ".

Definition recipe_prompt_tail (cuisine dietaryRestrictions : value) : jsstring :=
  lit "." ++ line_feed ::
  unlines ([ lit "      " ++ cuisine_clause cuisine;
             lit "      " ++ dietary_clause dietaryRestrictions ]
           ++ recipe_sections).

(** The words that open the two optional clauses. *)
Definition cuisine_marker : jsstring := lit "The cuisine should be ".
Definition dietary_marker : jsstring := lit "Please ensure the recipe is ".

(** The template literal of the recipe prompt, evaluated: each [${...}]
    is converted with [ToString] as it is reached, the nested templates
    of the two clauses only when their condition holds. *)
Definition recipe_template (ingredients cuisine dietaryRestrictions : value)
    : result jsstring :=
  ingredients_text ← ToString ingredients;
  cuisine_text ←
    (if truthy cuisine && strict_ne cuisine (lit "Any")
     then cuisine_text ← ToString cuisine;
          mret (lit "The cuisine should be " ++ cuisine_text ++ lit ".")
     else mret (lit ""));
  dietary_text ←
    (if truthy dietaryRestrictions && strict_ne dietaryRestrictions (lit "None")
     then dietary_text ← ToString dietaryRestrictions;
          mret (lit "Please ensure the recipe is " ++ dietary_text ++ lit ".")
     else mret (lit ""));
  mret (unlines
          ([ lit "Create a detailed recipe using these ingredients: "
               ++ ingredients_text ++ lit ".";
             lit "      " ++ cuisine_text;
             lit "      " ++ dietary_text ]
           ++ recipe_sections)).

Definition generate_recipe (provider : list part → result jsstring)
    (body : gmap string value) : M response :=
  try_catch
    (let ingredients := prop body "ingredients" in
     let cuisine := prop body "cuisine" in
     let dietaryRestrictions := prop body "dietaryRestrictions" in
     if negb (truthy ingredients)
     then mret (json 400 [("error", str "Ingredients are required")])
     else
       prompt ← lift (recipe_template ingredients cuisine dietaryRestrictions);
       recipe ← generateContent provider [TextPart prompt];
       mret (json 200 [("recipe", VString recipe)]))
    (λ error,
       console_error "Error generating recipe:" error;;
       mret (json 500 [("error", str "Failed to generate recipe");
                       ("details", VString (message error))])).

(** ** [POST /api/find-recipe-video] *)

Definition quoted (s : string) : jsstring := double_quote :: lit s ++ [double_quote].

(** The text of the prompt for given field values, when the fields it
    interpolates convert to strings; [video_template] below is the
    evaluation of the template literal. *)
Definition video_prompt (recipeName ingredients cuisine : value) : jsstring :=
  unlines
    [ lit "Create a precise YouTube search query for a recipe tutorial.";
      lit "    ";
      lit "    Recipe: " ++ to_string recipeName;
      lit "    " ++ (if truthy ingredients
                     then lit "Main ingredients: " ++ to_string ingredients
                     else lit "");
      lit "    " ++ (if truthy cuisine
                     then lit "Cuisine type: " ++ to_string cuisine
                     else lit "");
      lit "    ";
      lit "    INSTRUCTIONS:";
      lit "    1. Format the query to find reliable recipe tutorials.";
      lit "    2. Include the exact recipe name and essential ingredients.";
      lit "    3. Add phrases like " ++ quoted "recipe tutorial" ++ lit " or "
        ++ quoted "how to make" ++ lit " to target instructional videos.";
      lit "    4. Keep it between 5-10 words for optimal YouTube search results.";
      lit "    5. Avoid generic terms like " ++ quoted "best" ++ lit " or "
        ++ quoted "top" ++ lit " unless part of the recipe name.";
      lit "    6. Focus on popular cooking terms that will yield multiple high-quality results.";
      lit "    ";
      lit "    Your response should ONLY contain the optimized search query text - no explanations, quotes, or additional formatting.";
      lit "    Example output: " ++ quoted "authentic chicken tikka masala recipe tutorial" ].

(** The template literal of the video prompt, evaluated. *)
Definition video_template (recipeName ingredients cuisine : value)
    : result jsstring :=
  recipe_text ← ToString recipeName;
  ingredients_line ←
    (if truthy ingredients
     then ingredients_text ← ToString ingredients;
          mret (lit "Main ingredients: " ++ ingredients_text)
     else mret (lit ""));
  cuisine_line ←
    (if truthy cuisine
     then cuisine_text ← ToString cuisine;
          mret (lit "Cuisine type: " ++ cuisine_text)
     else mret (lit ""));
  mret (unlines
    [ lit "Create a precise YouTube search query for a recipe tutorial.";
      lit "    ";
      lit "    Recipe: " ++ recipe_text;
      lit "    " ++ ingredients_line;
      lit "    " ++ cuisine_line;
      lit "    ";
      lit "    INSTRUCTIONS:";
      lit "    1. Format the query to find reliable recipe tutorials.";
      lit "    2. Include the exact recipe name and essential ingredients.";
      lit "    3. Add phrases like " ++ quoted "recipe tutorial" ++ lit " or "
        ++ quoted "how to make" ++ lit " to target instructional videos.";
      lit "    4. Keep it between 5-10 words for optimal YouTube search results.";
      lit "    5. Avoid generic terms like " ++ quoted "best" ++ lit " or "
        ++ quoted "top" ++ lit " unless part of the recipe name.";
      lit "    6. Focus on popular cooking terms that will yield multiple high-quality results.";
      lit "    ";
      lit "    Your response should ONLY contain the optimized search query text - no explanations, quotes, or additional formatting.";
      lit "    Example output: " ++ quoted "authentic chicken tikka masala recipe tutorial" ]).

Definition embed_template : jsstring := lit "https://www.youtube-nocookie.com/embed?search=".
Definition search_template : jsstring := lit "https://www.youtube.com/results?search_query=".

(** [`template${encodeURIComponent(searchQuery)}`] *)
Definition url_of (template searchQuery : jsstring) : result jsstring :=
  match encodeURIComponent searchQuery with
  | Ok encoded => Ok (template ++ encoded)
  | Throw e => Throw e
  end.

Definition find_recipe_video (provider : list part → result jsstring)
    (body : gmap string value) : M response :=
  try_catch
    (let recipeName := prop body "recipeName" in
     let ingredients := prop body "ingredients" in
     let cuisine := prop body "cuisine" in
     if negb (truthy recipeName)
     then mret (json 400 [("error", str "Recipe name is required")])
     else
       prompt ← lift (video_template recipeName ingredients cuisine);
       text ← generateContent provider [TextPart prompt];
       let searchQuery := trim text in
       youtubeEmbedUrl ← lift (url_of embed_template searchQuery);
       youtubeFirstResultUrl ← lift (url_of embed_template searchQuery);
       youtubeSearchUrl ← lift (url_of search_template searchQuery);
       mret (json 200
               [("searchQuery", VString searchQuery);
                ("youtubeEmbedUrl", VString youtubeEmbedUrl);
                ("youtubeFirstResultUrl", VString youtubeFirstResultUrl);
                ("youtubeSearchUrl", VString youtubeSearchUrl)]))
    (λ error,
       console_error "Error finding recipe video:" error;;
       mret (json 500 [("error", str "Failed to find recipe video");
                       ("details", VString (message error))])).

(** ** The requests the handlers send and the responses they give *)

Definition analyze_request (file : file) (data : list N) : list part :=
  [TextPart analyze_instruction; InlineData (mimetype file) (base64 data)].

Definition failure (label : string) (text : string) (e : exn) (w : world)
    : result response * world :=
  (Ok (json 500 [("error", str text); ("details", VString (message e))]),
   log_error label e w).

(** The fields a template interpolates all convert to strings. *)
Definition recipe_convertible (body : gmap string value) : bool :=
  convertible (prop body "ingredients")
  && (negb (truthy (prop body "cuisine")
            && strict_ne (prop body "cuisine") (lit "Any"))
      || convertible (prop body "cuisine"))
  && (negb (truthy (prop body "dietaryRestrictions")
            && strict_ne (prop body "dietaryRestrictions") (lit "None"))
      || convertible (prop body "dietaryRestrictions")).

Definition video_convertible (body : gmap string value) : bool :=
  convertible (prop body "recipeName")
  && (negb (truthy (prop body "ingredients"))
      || convertible (prop body "ingredients"))
  && (negb (truthy (prop body "cuisine"))
      || convertible (prop body "cuisine")).

(** The request a handler sends to the provider, when it sends one. *)
Definition recipe_request (body : gmap string value) : list part :=
  [TextPart (recipe_prompt (prop body "ingredients") (prop body "cuisine")
                           (prop body "dietaryRestrictions"))].

Definition video_request (body : gmap string value) : list part :=
  [TextPart (video_prompt (prop body "recipeName") (prop body "ingredients")
                          (prop body "cuisine"))].

Definition video_result (searchQuery encoded : jsstring) : response :=
  json 200
    [("searchQuery", VString searchQuery);
     ("youtubeEmbedUrl", VString (embed_template ++ encoded));
     ("youtubeFirstResultUrl", VString (embed_template ++ encoded));
     ("youtubeSearchUrl", VString (search_template ++ encoded))].

(** ** Requests used as examples *)

Definition empty_world : world := World ∅ [] [].

Definition answering (text : jsstring) : list part → result jsstring :=
  λ _, Ok text.

Definition failing (msg : jsstring) : list part → result jsstring :=
  λ _, Throw (Error msg).

Definition jpeg_bytes : list N := [0xFF; 0xD8; 0xFF; 0xE0]%N.

Definition jpeg_part : file_part :=
  FilePart (lit "photo.jpg") (lit "image/jpeg") jpeg_bytes.

Definition jpeg_upload : upload_request :=
  UploadRequest (Some jpeg_part) "uploads/1700000000000-123456789.jpg".

Definition text_part : file_part :=
  FilePart (lit "notes.txt") (lit "text/plain") (lit "hi").

Definition text_upload : upload_request :=
  UploadRequest (Some text_part) "uploads/1700000000000-987654321.txt".

Definition staged_jpeg : file :=
  File (destination jpeg_upload) (lit "image/jpeg").

Definition staged_world : world :=
  World {[ destination jpeg_upload := jpeg_bytes ]} [] [].

Definition sentinel_body : gmap string value :=
  {[ "ingredients" := str "eggs, flour";
     "cuisine" := str "Any";
     "dietaryRestrictions" := str "None" ]}.

Definition eggs_body : gmap string value :=
  {[ "ingredients" := str "eggs, flour" ]}.

Definition tikka_body : gmap string value :=
  {[ "recipeName" := str "Chicken Tikka Masala" ]}.

Definition tikka_query : jsstring := lit "chicken tikka masala recipe tutorial".

(** An upload the middleware turns down: by its MIME type, or by its size. *)
Definition rejected_by_upload (p : file_part) : Prop :=
  starts_with (lit "image/") (part_mimetype p) = false
  ∨ (limits_fileSize upload < N.of_nat (List.length (part_data p)))%N.

(** ** Further definitions used to state what the code does *)

(** The helper [imageToBase64] of [server.js]; like [removeFile] it is
    not called by any handler, which read and encode the file inline. *)
Definition imageToBase64 (filePath : string) : M jsstring :=
  fileData ← readFileSync filePath;
  mret (base64 fileData).

(** An ingredient as the parser hands it out. *)
Definition clean_item (t : jsstring) : Prop :=
  t ≠ [] ∧ (comma ∉ t) ∧ Spec.no_white_ends t.

Definition comma_or_white (c : N) : Prop :=
  c = comma ∨ is_white_space c = true.

(** How [encodeURIComponent] writes one ASCII code unit. *)
Definition escape_unit (c : N) : jsstring :=
  if is_uri_unreserved c then [c] else percent_octet c.

(** The code units an encoded component is made of: the unreserved
    ones (the upper-case hexadecimal digits among them) and [%]. *)
Definition is_url_safe (c : N) : bool :=
  is_uri_unreserved c || (c =? 37)%N.

(** A string whose elements are code units: 16 bits each. *)
Definition well_formed (s : jsstring) : Prop :=
  Forall (λ c, (c < 0x10000)%N) s.

Definition no_surrogates (s : jsstring) : Prop :=
  Forall (λ c, is_lead_surrogate c = false ∧ is_trail_surrogate c = false) s.

(** The base64 alphabet with its padding character. *)
Definition is_base64_char (c : N) : bool :=
  ((65 <=? c) && (c <=? 90) || (97 <=? c) && (c <=? 122)
   || (48 <=? c) && (c <=? 57) || (c =? 43) || (c =? 47) || (c =? 61))%N.

(** A handler run that ends with a response whose status is one of [codes]. *)
Definition answered (r : result response * world) (codes : list nat) : Prop :=
  ∃ res, fst r = Ok res ∧ status res ∈ codes.

(** A handler run that wrote to [console.error] exactly if it answered
    500, and then logged the error whose message is in [details]. *)
Definition logs_failures (label text : string)
    (r : result response * world) (w : world) : Prop :=
  ∃ res, fst r = Ok res ∧
    ((status res ≠ 500 ∧ console (snd r) = console w)
     ∨ (∃ e, res = json 500 [("error", str text); ("details", VString (message e))]
             ∧ console (snd r) = console w ++ [(lit label, e)])).

Definition lone_surrogate_text : jsstring := (lit "pad thai " ++ [0xD83D])%N.

Definition untrimmed_recipe : jsstring := lit "  Pancakes " ++ [line_feed].

(** Bodies with a field that does not convert to a string. *)
Definition own_toString_body : gmap string value :=
  {[ "ingredients" := VObject [("toString", str "x")] ]}.

Definition nested_toString_body : gmap string value :=
  {[ "recipeName" := VArray [str "Pad Thai"; VObject [("toString", VNull)]] ]}.

(** * Proofs *)

(** ** Facts about [split] and [join] *)

Lemma split_not_nil sep s : split sep s ≠ [].
Proof.
  destruct s as [|c s]; simpl; [done|].
  destruct (c =? sep)%N; [done|]. by destruct (split sep s).
Qed.

Lemma join_cons sep f g fs : join sep (f :: g :: fs) = f ++ sep :: join sep (g :: fs).
Proof. reflexivity. Qed.

Lemma join_split sep s : join sep (split sep s) = s.
Proof.
  induction s as [|c s IH]; [done|].
  pose proof (split_not_nil sep s) as Hnn.
  cbn [split]. destruct (N.eqb_spec c sep) as [->|Hne].
  - destruct (split sep s) as [|g gs]; [done|].
    rewrite join_cons. by rewrite IH.
  - destruct (split sep s) as [|g gs]; [done|].
    destruct gs as [|h hs]; [by rewrite <- IH|].
    rewrite join_cons. rewrite join_cons in IH. by rewrite <- IH.
Qed.

Lemma split_fields_no_sep sep s : Forall (fun f => sep ∉ f) (split sep s).
Proof.
  induction s as [|c s IH]; simpl.
  - repeat constructor. by intros ?%elem_of_nil.
  - destruct (N.eqb_spec c sep) as [->|Hne].
    + constructor; [by intros ?%elem_of_nil | done].
    + destruct (split sep s) as [|g gs]; simpl.
      * repeat constructor. intros ?%list_elem_of_singleton. congruence.
      * inversion IH; subst. constructor; [|done].
        intros [?|?]%elem_of_cons; [congruence | done].
Qed.

Lemma split_no_sep sep f : sep ∉ f → split sep f = [f].
Proof.
  induction f as [|c f IH]; intros Hni; simpl; [done|].
  destruct (N.eqb_spec c sep) as [->|Hne].
  - exfalso. apply Hni. by left.
  - rewrite IH; [done|]. intros ?. apply Hni. by right.
Qed.

Lemma split_app_sep sep f r :
  sep ∉ f → split sep (f ++ sep :: r) = f :: split sep r.
Proof.
  induction f as [|c f IH]; intros Hni; simpl.
  - by rewrite N.eqb_refl.
  - destruct (N.eqb_spec c sep) as [->|Hne].
    + exfalso. apply Hni. by left.
    + rewrite IH; [done|]. intros ?. apply Hni. by right.
Qed.

Lemma split_join sep l :
  l ≠ [] → Forall (fun f => sep ∉ f) l → split sep (join sep l) = l.
Proof.
  induction l as [|f fs IH]; intros Hnn Hall; [done|].
  inversion Hall as [|? ? Hf Hfs]; subst.
  destruct fs as [|g gs].
  - simpl. by apply split_no_sep.
  - rewrite join_cons, split_app_sep by done.
    f_equal. by apply IH.
Qed.

Lemma split_on_iff sep text fields :
  Spec.split_on sep text fields ↔ fields = split sep text.
Proof.
  split.
  - intros (Hnn & <- & Hall). symmetry. by apply split_join.
  - intros ->. split; [apply split_not_nil|].
    split; [apply join_split | apply split_fields_no_sep].
Qed.

(** ** Facts about [trim] *)

Lemma trim_start_white l s : Spec.all_white l → trim_start (l ++ s) = trim_start s.
Proof.
  induction 1 as [|c l Hc _ IH]; simpl; [done|]. by rewrite Hc.
Qed.

Lemma trim_start_all_white r : Spec.all_white r → trim_start r = [].
Proof.
  intros Hr. rewrite <- (app_nil_r r). by rewrite trim_start_white.
Qed.

Lemma trim_start_id s :
  (∀ c, head s = Some c → is_white_space c = false) → trim_start s = s.
Proof.
  destruct s as [|c s]; intros Hh; simpl; [done|].
  by rewrite (Hh c eq_refl).
Qed.

Lemma trim_start_decomp s : ∃ l, s = l ++ trim_start s ∧ Spec.all_white l.
Proof.
  induction s as [|c s (l & Hl & Hw)]; simpl.
  - exists []. split; [done | constructor].
  - destruct (is_white_space c) eqn:Hc.
    + exists (c :: l). split; [simpl; congruence | by constructor].
    + exists []. split; [done | constructor].
Qed.

Lemma trim_start_head s c :
  head (trim_start s) = Some c → is_white_space c = false.
Proof.
  induction s as [|d s IH]; simpl; [done|].
  destruct (is_white_space d) eqn:Hd; [done|].
  simpl. congruence.
Qed.

Lemma all_white_reverse r : Spec.all_white r → Spec.all_white (reverse r).
Proof. apply Forall_reverse. Qed.

Lemma trim_end_white s r : Spec.all_white r → trim_end (s ++ r) = trim_end s.
Proof.
  intros Hr. unfold trim_end.
  by rewrite reverse_app, trim_start_white by by apply all_white_reverse.
Qed.

Lemma trim_end_id s :
  (∀ c, last s = Some c → is_white_space c = false) → trim_end s = s.
Proof.
  intros Hl. unfold trim_end. rewrite trim_start_id.
  - apply reverse_involutive.
  - intros c Hc. apply Hl. by rewrite <- head_reverse.
Qed.

Lemma trim_end_decomp s : ∃ r, s = trim_end s ++ r ∧ Spec.all_white r.
Proof.
  destruct (trim_start_decomp (reverse s)) as (l & Hl & Hw).
  exists (reverse l). split; [|by apply all_white_reverse].
  unfold trim_end. rewrite <- reverse_app, <- Hl.
  symmetry. apply reverse_involutive.
Qed.

Lemma trim_end_last s c :
  last (trim_end s) = Some c → is_white_space c = false.
Proof.
  unfold trim_end. rewrite last_reverse. apply trim_start_head.
Qed.

Lemma trim_end_head s c : head (trim_end s) = Some c → head s = Some c.
Proof.
  destruct (trim_end_decomp s) as (r & Hs & _).
  intros Hh. rewrite Hs. by destruct (trim_end s).
Qed.

Lemma trim_trimmed tok : Spec.trimmed tok (trim tok).
Proof.
  destruct (trim_start_decomp tok) as (l & Hl & Hwl).
  destruct (trim_end_decomp (trim_start tok)) as (r & Hr & Hwr).
  exists l, r. unfold trim. rewrite <- Hr. repeat split; try done.
  - intros c Hc. apply (trim_start_head tok). by apply trim_end_head.
  - apply trim_end_last.
Qed.

Lemma trimmed_trim tok t : Spec.trimmed tok t → t = trim tok.
Proof.
  intros (l & r & -> & Hwl & Hwr & Hhead & Hlast).
  unfold trim. rewrite trim_start_white by done.
  destruct t as [|c t].
  - simpl. by rewrite (trim_start_all_white r).
  - rewrite trim_start_id.
    + rewrite trim_end_white by done. symmetry. by apply trim_end_id.
    + intros d Hd. apply Hhead. by simpl in *.
Qed.

Lemma trimmed_iff tok t : Spec.trimmed tok t ↔ t = trim tok.
Proof. split; [apply trimmed_trim | intros ->; apply trim_trimmed]. Qed.

Lemma Forall2_trimmed fields toks :
  Forall2 Spec.trimmed fields toks ↔ toks = map trim fields.
Proof.
  split.
  - induction 1 as [|f t fs ts Hft _ IH]; simpl; [done|].
    by rewrite (trimmed_trim _ _ Hft), IH.
  - intros ->. induction fields; constructor; [apply trim_trimmed | done].
Qed.

Lemma nonempty_test (t : jsstring) :
  (0 <? List.length t) = negb (bool_decide (t = [])).
Proof. by destruct t. Qed.

Lemma parsed_iff text result :
  Spec.parsed text result ↔ result = parse_ingredients text.
Proof.
  unfold Spec.parsed, parse_ingredients. split.
  - intros (fields & toks & Hs%split_on_iff & Ht%Forall2_trimmed & ->).
    subst. symmetry. apply List.filter_ext, nonempty_test.
  - intros ->. exists (split comma text), (map trim (split comma text)).
    split; [by apply split_on_iff|]. split; [by apply Forall2_trimmed|].
    apply List.filter_ext, nonempty_test.
Qed.

Example parse_abc :
  parse_ingredients (lit "a, b ,c,") = [lit "a"; lit "b"; lit "c"].
Proof. reflexivity. Qed.

(** ** The string operations on examples *)

Example base64_Man : base64 (lit "Man") = lit "TWFu".
Proof. reflexivity. Qed.
Example base64_Ma : base64 (lit "Ma") = lit "TWE=".
Proof. reflexivity. Qed.
Example base64_M : base64 (lit "M") = lit "TQ==".
Proof. reflexivity. Qed.

Example encode_space : encodeURIComponent (lit "a b") = Ok (lit "a%20b").
Proof. reflexivity. Qed.
(* U+00E9, U+20AC and U+1F600 (as a surrogate pair) *)
Example encode_non_ascii :
  encodeURIComponent [0xE9; 0x20AC; 0xD83D; 0xDE00]%N
  = Ok (lit "%C3%A9%E2%82%AC%F0%9F%98%80").
Proof. reflexivity. Qed.
Example encode_lone_surrogate :
  encodeURIComponent [0x61; 0xD83D]%N = Throw uri_error.
Proof. reflexivity. Qed.
Example to_string_array :
  to_string (VArray [VString (lit "a"); VNull; VArray [VBool true; VString (lit "b")]])
  = lit "a,,true,b".
Proof. reflexivity. Qed.

(** ** The conversion to string and the template literals *)

Lemma value_nested_ind (P : value → Prop) :
  P VUndefined → P VNull → (∀ b, P (VBool b)) →
  (∀ falsy text, P (VNumber falsy text)) → (∀ s, P (VString s)) →
  (∀ items, Forall P items → P (VArray items)) →
  (∀ fields, P (VObject fields)) →
  ∀ v, P v.
Proof.
  intros Hu Hn Hb Hnum Hs Harr Hobj. fix IH 1.
  intros [ | | b | falsy text | s | items | fields];
    [apply Hu | apply Hn | apply Hb | apply Hnum | apply Hs | | apply Hobj].
  apply Harr. induction items as [|e items IHitems]; constructor; [apply IH | done].
Qed.

Lemma ToString_spec v :
  ToString v = if convertible v then Ok (to_string v) else Throw type_error.
Proof.
  induction v as [ | | b | falsy text | s | items IH | fields]
    using value_nested_ind; try done.
  all: try (by destruct b).
  - cbn [ToString convertible to_string].
    match goal with
    | |- match ?elements items with _ => _ end = _ =>
        assert (elements items
                = if forallb convertible items
                  then Ok (map (λ e, match e with
                                     | VUndefined | VNull => []
                                     | _ => to_string e
                                     end) items)
                  else Throw type_error) as ->
    end.
    + induction IH as [|e items He _ IHitems]; [done|].
      cbn [forallb map]. rewrite IHitems.
      destruct e; try (by destruct (forallb convertible items));
        rewrite He; destruct (convertible _); try done;
        by destruct (forallb convertible items).
    + by destruct (forallb convertible items).
  - cbn [ToString convertible to_string]. by destruct (has_own _ _).
Qed.

Lemma ToString_returns v text : ToString v = Ok text → text = to_string v.
Proof. rewrite ToString_spec. destruct (convertible v); by intros [=]. Qed.

Lemma ToString_throws v e : ToString v = Throw e → e = type_error.
Proof. rewrite ToString_spec. destruct (convertible v); by intros [=]. Qed.

Lemma recipe_template_spec (body : gmap string value) :
  recipe_template (prop body "ingredients") (prop body "cuisine")
                  (prop body "dietaryRestrictions")
  = if recipe_convertible body
    then Ok (recipe_prompt (prop body "ingredients") (prop body "cuisine")
                           (prop body "dietaryRestrictions"))
    else Throw type_error.
Proof.
  unfold recipe_template, recipe_convertible, recipe_prompt, cuisine_clause,
    dietary_clause.
  rewrite !ToString_spec.
  destruct (convertible (prop body "ingredients")); [|done].
  destruct (truthy (prop body "cuisine") && _);
    [destruct (convertible (prop body "cuisine")); [|done]|];
    (destruct (truthy (prop body "dietaryRestrictions") && _);
       [by destruct (convertible (prop body "dietaryRestrictions"))|done]).
Qed.

Lemma video_template_spec (body : gmap string value) :
  video_template (prop body "recipeName") (prop body "ingredients")
                 (prop body "cuisine")
  = if video_convertible body
    then Ok (video_prompt (prop body "recipeName") (prop body "ingredients")
                          (prop body "cuisine"))
    else Throw type_error.
Proof.
  unfold video_template, video_convertible, video_prompt.
  rewrite !ToString_spec.
  destruct (convertible (prop body "recipeName")); [|done].
  destruct (truthy (prop body "ingredients"));
    [destruct (convertible (prop body "ingredients")); [|done]|];
    (destruct (truthy (prop body "cuisine"));
       [by destruct (convertible (prop body "cuisine"))|done]).
Qed.

Lemma recipe_template_ok (body : gmap string value) prompt :
  recipe_template (prop body "ingredients") (prop body "cuisine")
                  (prop body "dietaryRestrictions") = Ok prompt →
  recipe_convertible body = true ∧ [TextPart prompt] = recipe_request body.
Proof.
  rewrite recipe_template_spec.
  destruct (recipe_convertible body); [|done]. by intros [= <-].
Qed.

Lemma recipe_template_throws (body : gmap string value) e :
  recipe_template (prop body "ingredients") (prop body "cuisine")
                  (prop body "dietaryRestrictions") = Throw e →
  recipe_convertible body = false ∧ e = type_error.
Proof.
  rewrite recipe_template_spec.
  destruct (recipe_convertible body); [done|]. by intros [= <-].
Qed.

Lemma video_template_ok (body : gmap string value) prompt :
  video_template (prop body "recipeName") (prop body "ingredients")
                 (prop body "cuisine") = Ok prompt →
  video_convertible body = true ∧ [TextPart prompt] = video_request body.
Proof.
  rewrite video_template_spec.
  destruct (video_convertible body); [|done]. by intros [= <-].
Qed.

Lemma video_template_throws (body : gmap string value) e :
  video_template (prop body "recipeName") (prop body "ingredients")
                 (prop body "cuisine") = Throw e →
  video_convertible body = false ∧ e = type_error.
Proof.
  rewrite video_template_spec.
  destruct (video_convertible body); [done|]. by intros [= <-].
Qed.

(** ** What each handler does, case by case *)

Lemma analyze_image_no_file provider w :
  analyze_image provider None w
  = (Ok (json 400 [("error", str "No image file provided")]), w).
Proof. reflexivity. Qed.

Lemma analyze_image_cases provider file w :
  analyze_image provider (Some file) w =
  match files w !! path file with
  | None =>
      failure "Error analyzing image:" "Failed to analyze image"
              (enoent "open" (path file)) w
  | Some data =>
      match provider (analyze_request file data) with
      | Throw e =>
          failure "Error analyzing image:" "Failed to analyze image" e
                  (log_call (analyze_request file data) w)
      | Ok text =>
          (Ok (json 200 [("ingredients",
                          VArray (map VString (parse_ingredients text)))]),
           set_files (delete (path file) (files w))
                     (log_call (analyze_request file data) w))
      end
  end.
Proof.
  unfold analyze_image, try_catch, mbind, M_bind, readFileSync,
    generateContent, unlinkSync, analyze_request, failure.
  destruct (files w !! path file) as [data|] eqn:Hf; [|done].
  destruct (provider _) as [text|e]; [|done].
  cbn. by rewrite Hf.
Qed.

Lemma generate_recipe_cases provider body w :
  generate_recipe provider body w =
  if truthy (prop body "ingredients") then
    if recipe_convertible body then
      match provider (recipe_request body) with
      | Throw e =>
          failure "Error generating recipe:" "Failed to generate recipe" e
                  (log_call (recipe_request body) w)
      | Ok recipe =>
          (Ok (json 200 [("recipe", VString recipe)]),
           log_call (recipe_request body) w)
      end
    else failure "Error generating recipe:" "Failed to generate recipe"
                 type_error w
  else (Ok (json 400 [("error", str "Ingredients are required")]), w).
Proof.
  unfold generate_recipe, try_catch, mbind at 1, M_bind, lift.
  destruct (truthy (prop body "ingredients")); [|done].
  cbn [negb]. rewrite recipe_template_spec.
  destruct (recipe_convertible body); [|done].
  unfold mbind, M_bind, generateContent, recipe_request, failure.
  by destruct (provider _).
Qed.

Lemma find_recipe_video_cases provider body w :
  find_recipe_video provider body w =
  if truthy (prop body "recipeName") then
    if video_convertible body then
      match provider (video_request body) with
      | Throw e =>
          failure "Error finding recipe video:" "Failed to find recipe video" e
                  (log_call (video_request body) w)
      | Ok text =>
          match encodeURIComponent (trim text) with
          | Throw e =>
              failure "Error finding recipe video:" "Failed to find recipe video" e
                      (log_call (video_request body) w)
          | Ok encoded =>
              (Ok (video_result (trim text) encoded),
               log_call (video_request body) w)
          end
      end
    else failure "Error finding recipe video:" "Failed to find recipe video"
                 type_error w
  else (Ok (json 400 [("error", str "Recipe name is required")]), w).
Proof.
  unfold find_recipe_video, try_catch, mbind at 1, M_bind, lift.
  destruct (truthy (prop body "recipeName")); [|done].
  cbn [negb]. rewrite video_template_spec.
  destruct (video_convertible body); [|done].
  unfold mbind, M_bind, generateContent, video_request, failure, lift, url_of,
    video_result.
  destruct (provider _) as [text|e]; [|done].
  by destruct (encodeURIComponent (trim text)).
Qed.

Lemma prop_missing (body : gmap string value) key :
  body !! key = None → prop body key = VUndefined.
Proof. unfold prop. by intros ->. Qed.

(** ** Searching a text that sits between two fixed texts *)

Lemma starts_with_app_foreign p y post c :
  head post = Some c → c ∉ p → starts_with p (y ++ post) = starts_with p y.
Proof.
  intros Hpost. revert p.
  induction y as [|a y IH]; intros p Hc.
  - destruct p as [|b p]; [by destruct post|].
    destruct post as [|c' post]; [done|]. simpl in *.
    injection Hpost as ->.
    destruct (N.eqb_spec b c) as [->|_]; [|done].
    exfalso. apply Hc. by left.
  - destruct p as [|b p]; [done|]. simpl.
    rewrite IH; [done|]. intros ?. apply Hc. by right.
Qed.

Lemma includes_skip_prefix p pre s f :
  head p = Some f → f ∉ pre → includes p (pre ++ s) = includes p s.
Proof.
  intros Hp. induction pre as [|a pre IH]; intros Hf; [done|].
  destruct p as [|b p]; [done|]. simpl in Hp. injection Hp as ->.
  cbn [app includes starts_with].
  destruct (N.eqb_spec f a) as [->|_].
  - exfalso. apply Hf. by left.
  - simpl. apply IH. intros ?. apply Hf. by right.
Qed.

Lemma includes_app_foreign p x post f c :
  head p = Some f → head post = Some c → c ∉ p → includes p post = false →
  includes p (x ++ post) = includes p x.
Proof.
  intros Hp Hpost Hc Hno. induction x as [|a x IH].
  - simpl. rewrite Hno. by destruct p.
  - cbn [app includes]. rewrite IH.
    by rewrite <- (starts_with_app_foreign p (a :: x) post c).
Qed.

Lemma includes_sandwich p pre x post f c :
  head p = Some f → f ∉ pre →
  head post = Some c → c ∉ p → includes p post = false →
  includes p (pre ++ x ++ post) = includes p x.
Proof.
  intros Hp Hf Hpost Hc Hno.
  rewrite (includes_skip_prefix p pre _ f) by done.
  by apply (includes_app_foreign p x post f c).
Qed.

Lemma recipe_prompt_split ingredients cuisine dietaryRestrictions :
  recipe_prompt ingredients cuisine dietaryRestrictions
  = recipe_prompt_head ++ to_string ingredients
      ++ recipe_prompt_tail cuisine dietaryRestrictions.
Proof.
  unfold recipe_prompt, recipe_prompt_tail, recipe_prompt_head, unlines.
  cbn [app]. rewrite join_cons. by rewrite <- !app_assoc.
Qed.

(** ** The ingredient parser *)

Lemma trim_sublist tok c : c ∈ trim tok → c ∈ tok.
Proof.
  destruct (trim_trimmed tok) as (l & r & Htok & _).
  intros Hc. rewrite Htok. set_solver.
Qed.

Lemma parse_ingredients_item text t :
  t ∈ parse_ingredients text → t ≠ [] ∧ (comma ∉ t) ∧ Spec.no_white_ends t.
Proof.
  unfold parse_ingredients.
  rewrite list_elem_of_In, List.filter_In, <- list_elem_of_In.
  intros [Hin Hlen]. apply list_elem_of_fmap in Hin as (f & -> & Hf).
  split; [by destruct (trim f)|]. split.
  - intros Hc%trim_sublist.
    pose proof (split_fields_no_sep comma text) as Hall.
    rewrite Forall_forall in Hall. by apply (Hall f).
  - by destruct (trim_trimmed f) as (l & r & _ & _ & _ & Hends).
Qed.

(** C1: for every provider response text the ingredient parser returns
    the list obtained by splitting the text on commas, trimming white
    space from each token, discarding the empty tokens and keeping the
    order of the rest; for ["a, b ,c,"] it returns [["a"; "b"; "c"]]. *)
Theorem parse_ingredients_split_trim_discard (text : jsstring) :
  (∀ result, Spec.parsed text result ↔ result = parse_ingredients text)
  ∧ parse_ingredients (lit "a, b ,c,") = [lit "a"; lit "b"; lit "c"].
Proof.
  split; [intros result; apply parsed_iff | reflexivity].
Qed.

(** C9: the parse step never fails.  Whatever text the provider answers,
    the handler goes on to its 200 response carrying the parsed list,
    and the empty text gives the empty list. *)
Theorem analyze_image_parse_never_fails provider file data text w :
  files w !! path file = Some data →
  provider (analyze_request file data) = Ok text →
  fst (analyze_image provider (Some file) w)
  = Ok (json 200 [("ingredients", VArray (map VString (parse_ingredients text)))])
  ∧ parse_ingredients (lit "") = [].
Proof.
  intros Hfile Hprov. rewrite analyze_image_cases, Hfile, Hprov. done.
Qed.

Lemma analyze_image_parse_never_fails_witness :
  fst (analyze_image (answering (lit "")) (Some staged_jpeg) staged_world)
  = Ok (json 200 [("ingredients", VArray [])])
  ∧ parse_ingredients (lit "") = [].
Proof.
  apply (analyze_image_parse_never_fails
           (answering (lit "")) staged_jpeg jpeg_bytes (lit "") staged_world);
    reflexivity.
Defined.

(** ** The staged upload *)

Lemma single_stages_image req p w :
  image req = Some p →
  starts_with (lit "image/") (part_mimetype p) = true →
  (N.of_nat (List.length (part_data p)) <= limits_fileSize upload)%N →
  single upload req w
  = (Ok (Some (File (destination req) (part_mimetype p))),
     set_files (<[destination req := part_data p]> (files w)) w).
Proof.
  intros Himg Hmime Hsize. unfold single. rewrite Himg.
  cbn [upload fileFilter]. rewrite Hmime.
  by rewrite (proj2 (N.ltb_ge _ _) Hsize).
Qed.

Lemma single_rejects req p w :
  image req = Some p → rejected_by_upload p →
  ∃ e, single upload req w = (Throw e, w).
Proof.
  intros Himg Hrej. unfold single. rewrite Himg.
  cbn [upload fileFilter].
  destruct (starts_with _ _) eqn:Hmime; [|by eexists].
  destruct Hrej as [?|Hbig]; [congruence|].
  rewrite (proj2 (N.ltb_lt _ _) Hbig). by eexists.
Qed.

(** The size limit at work, on a limit small enough to write the file out. *)
Example single_over_limit :
  single (Multer 3 (fileFilter upload)) jpeg_upload empty_world
  = (Throw (Error (lit "File too large")), empty_world).
Proof. reflexivity. Qed.

(** On the success path the staged file is unlinked before the response. *)
Lemma analyze_image_success_unlinks provider file data text w :
  files w !! path file = Some data →
  provider (analyze_request file data) = Ok text →
  files (snd (analyze_image provider (Some file) w)) !! path file = None.
Proof.
  intros Hfile Hprov. rewrite analyze_image_cases, Hfile, Hprov.
  cbn. apply lookup_delete_eq.
Qed.

(** When the provider throws, the [catch] block answers 500 and the
    staged file stays where it was. *)
Lemma analyze_image_failure_keeps_file provider file data e w :
  files w !! path file = Some data →
  provider (analyze_request file data) = Throw e →
  analyze_image provider (Some file) w
  = failure "Error analyzing image:" "Failed to analyze image" e
            (log_call (analyze_request file data) w)
  ∧ files (snd (analyze_image provider (Some file) w)) !! path file = Some data.
Proof.
  intros Hfile Hprov. rewrite analyze_image_cases, Hfile, Hprov. done.
Qed.

(** C2 (the code at the failing input): a JPEG is uploaded and the
    provider call throws.  The response is the 500 of the [catch] block
    and the staged file is still in the uploads directory afterwards,
    where the specification wants it deleted whatever the outcome; on
    the same upload with a provider that answers, it is gone. *)
Theorem staged_file_survives_provider_failure :
  let after_failure :=
    post_analyze_image (failing (lit "fetch failed")) jpeg_upload empty_world in
  let after_success :=
    post_analyze_image (answering (lit "tomato, onion, garlic")) jpeg_upload empty_world in
  fst after_failure
  = json 500 [("error", str "Failed to analyze image");
              ("details", str "fetch failed")]
  ∧ files (snd after_failure) !! destination jpeg_upload = Some jpeg_bytes
  ∧ fst after_success
    = json 200 [("ingredients", VArray [str "tomato"; str "onion"; str "garlic"])]
  ∧ files (snd after_success) !! destination jpeg_upload = None.
Proof. vm_compute. done. Qed.

(** C3 (the code at the failing input): a [text/plain] upload is turned
    down by the MIME check.  The provider is not called and nothing is
    staged, as the specification says; but the filter's error, whose
    message is written for the client, reaches no error handler of the
    application, and the response is the framework's 500 error page
    where the specification asks for a 400, the status the handlers
    give every other invalid input. *)
Theorem rejected_upload_is_not_400 :
  let r := post_analyze_image (answering (lit "tomato")) text_upload empty_world in
  rejected_by_upload text_part
  ∧ fst r = Response 500
              (ErrorPage (Error (lit "Not an image! Please upload an image file.")))
  ∧ status (fst r) ≠ 400
  ∧ provider_calls (snd r) = []
  ∧ files (snd r) = ∅.
Proof. split; [by left | by vm_compute]. Qed.

(** A request with no file part is the one case answered 400. *)
Lemma missing_file_is_400 provider dest w :
  post_analyze_image provider (UploadRequest None dest) w
  = (json 400 [("error", str "No image file provided")], w).
Proof. reflexivity. Qed.

(** ** The recipe prompt *)

Lemma sentinel_clauses_empty :
  cuisine_clause (str "Any") = [] ∧ dietary_clause (str "None") = [].
Proof. split; reflexivity. Qed.

Lemma marker_only_from_ingredients marker first ingredients :
  head marker = Some first →
  bool_decide (first ∈ recipe_prompt_head) = false →
  bool_decide (N_of_ascii "." ∈ marker) = false →
  includes marker (recipe_prompt_tail VUndefined VUndefined) = false →
  includes marker (recipe_prompt ingredients VUndefined VUndefined)
  = includes marker (to_string ingredients).
Proof.
  intros Hfirst Hhead%bool_decide_eq_false Hdot%bool_decide_eq_false Htail.
  rewrite recipe_prompt_split.
  by apply (includes_sandwich marker _ _ _ first (N_of_ascii ".")).
Qed.

(** C4: for every recipe request with cuisine ["Any"] and
    dietaryRestrictions ["None"] the prompt has neither a cuisine clause
    nor a dietary clause.  Both clauses are the empty string and the
    prompt is the one built when the two fields are absent; the words
    that open a clause occur in it only where the ingredients text, which
    the prompt quotes, has them itself. *)
Theorem sentinel_constraints_are_omitted (req_body : gmap string value) :
  req_body !! "cuisine" = Some (str "Any") →
  req_body !! "dietaryRestrictions" = Some (str "None") →
  let ingredients := prop req_body "ingredients" in
  let prompt := recipe_prompt ingredients (str "Any") (str "None") in
  recipe_request req_body = [TextPart prompt]
  ∧ cuisine_clause (prop req_body "cuisine") = []
  ∧ dietary_clause (prop req_body "dietaryRestrictions") = []
  ∧ prompt = recipe_prompt_head ++ to_string ingredients
               ++ recipe_prompt_tail VUndefined VUndefined
  ∧ includes cuisine_marker prompt = includes cuisine_marker (to_string ingredients)
  ∧ includes dietary_marker prompt = includes dietary_marker (to_string ingredients).
Proof.
  intros Hc Hd ingredients prompt.
  unfold recipe_request, prop. rewrite Hc, Hd. cbn [default].
  assert (prompt = recipe_prompt ingredients VUndefined VUndefined) as Hp
    by reflexivity.
  repeat split; try reflexivity.
  - rewrite Hp. apply recipe_prompt_split.
  - rewrite Hp. by apply (marker_only_from_ingredients _ (N_of_ascii "T")).
  - rewrite Hp. by apply (marker_only_from_ingredients _ (N_of_ascii "P")).
Qed.

Lemma sentinel_constraints_are_omitted_witness :
  let prompt := recipe_prompt (str "eggs, flour") (str "Any") (str "None") in
  recipe_request sentinel_body = [TextPart prompt]
  ∧ cuisine_clause (prop sentinel_body "cuisine") = []
  ∧ dietary_clause (prop sentinel_body "dietaryRestrictions") = []
  ∧ prompt = recipe_prompt_head ++ lit "eggs, flour"
               ++ recipe_prompt_tail VUndefined VUndefined
  ∧ includes cuisine_marker prompt = includes cuisine_marker (lit "eggs, flour")
  ∧ includes dietary_marker prompt = includes dietary_marker (lit "eggs, flour").
Proof.
  apply (sentinel_constraints_are_omitted sentinel_body); reflexivity.
Defined.

(** With other values the clauses are there. *)
Example thai_vegan_clauses :
  cuisine_clause (str "Thai") = lit "The cuisine should be Thai."
  ∧ dietary_clause (str "vegan") = lit "Please ensure the recipe is vegan."
  ∧ includes cuisine_marker
      (recipe_prompt (str "eggs") (str "Thai") (str "vegan")) = true
  ∧ includes cuisine_marker
      (recipe_prompt (str "eggs") (str "Any") (str "None")) = false.
Proof. vm_compute. done. Qed.

(** ** [/api/generate-recipe] *)

(** C5: a generate-recipe request whose body has no [ingredients] field
    is answered 400 with error ["Ingredients are required"], and the
    inference provider is not called. *)
Theorem missing_ingredients_is_400 provider (req_body : gmap string value) w :
  req_body !! "ingredients" = None →
  generate_recipe provider req_body w
  = (Ok (json 400 [("error", str "Ingredients are required")]), w)
  ∧ provider_calls (snd (generate_recipe provider req_body w)) = provider_calls w.
Proof.
  intros Hmiss. rewrite generate_recipe_cases, (prop_missing _ _ Hmiss). done.
Qed.

Lemma missing_ingredients_is_400_witness :
  generate_recipe (answering (lit "Pancakes")) ∅ empty_world
  = (Ok (json 400 [("error", str "Ingredients are required")]), empty_world)
  ∧ provider_calls (snd (generate_recipe (answering (lit "Pancakes")) ∅ empty_world))
    = provider_calls empty_world.
Proof.
  apply (missing_ingredients_is_400 (answering (lit "Pancakes")) ∅ empty_world).
  reflexivity.
Defined.

(** C6, as the specification states it, fails: the provider is called
    and throws an error whose message is empty, and the [details] of the
    500 response is the empty string. *)
Lemma empty_provider_message_gives_empty_details :
  let r := generate_recipe (failing (lit "")) eggs_body empty_world in
  provider_calls (snd r) = [recipe_request eggs_body]
  ∧ fst r = Ok (json 500 [("error", str "Failed to generate recipe");
                          ("details", VString [])]).
Proof. by vm_compute. Qed.

(** C6, amended: when the provider call throws during recipe synthesis
    the handler answers 500 with error ["Failed to generate recipe"] and
    with the message of the thrown error as [details], whatever that
    message is; [details] is empty only when the message is. *)
Theorem provider_failure_is_500
    provider (req_body : gmap string value) (prompt : jsstring) (e : exn) w :
  truthy (prop req_body "ingredients") = true →
  recipe_template (prop req_body "ingredients") (prop req_body "cuisine")
                  (prop req_body "dietaryRestrictions") = Ok prompt →
  provider [TextPart prompt] = Throw e →
  let r := generate_recipe provider req_body w in
  provider_calls (snd r) = provider_calls w ++ [[TextPart prompt]]
  ∧ fst r = Ok (json 500 [("error", str "Failed to generate recipe");
                          ("details", VString (message e))]).
Proof.
  intros Hingr [Hconv Hreq]%recipe_template_ok Hthrow. rewrite Hreq in *.
  cbn zeta. by rewrite generate_recipe_cases, Hingr, Hconv, Hthrow.
Qed.

Lemma provider_failure_is_500_witness :
  let r := generate_recipe (failing (lit "fetch failed")) eggs_body empty_world in
  provider_calls (snd r)
  = provider_calls empty_world
    ++ [[TextPart (recipe_prompt (str "eggs, flour") VUndefined VUndefined)]]
  ∧ fst r = Ok (json 500 [("error", str "Failed to generate recipe");
                          ("details", VString (lit "fetch failed"))]).
Proof.
  apply (provider_failure_is_500 (failing (lit "fetch failed")) eggs_body
           (recipe_prompt (str "eggs, flour") VUndefined VUndefined)
           (Error (lit "fetch failed")) empty_world);
    reflexivity.
Defined.

(** ** [/api/find-recipe-video] *)

Lemma find_recipe_video_success provider (req_body : gmap string value) res w :
  fst (find_recipe_video provider req_body w) = Ok res → status res = 200 →
  ∃ text encoded,
    truthy (prop req_body "recipeName") = true
    ∧ provider (video_request req_body) = Ok text
    ∧ encodeURIComponent (trim text) = Ok encoded
    ∧ res = video_result (trim text) encoded.
Proof.
  rewrite find_recipe_video_cases.
  destruct (truthy (prop req_body "recipeName")); cbn;
    [|by intros [= <-] [=]].
  destruct (video_convertible req_body); cbn; [|by intros [= <-] [=]].
  destruct (provider (video_request req_body)) as [text|e]; cbn;
    [|by intros [= <-] [=]].
  destruct (encodeURIComponent (trim text)) as [encoded|e] eqn:Henc; cbn.
  - intros [= <-] _. by exists text, encoded.
  - by intros [= <-] [=].
Qed.

Lemma url_of_encoded template searchQuery encoded :
  encodeURIComponent searchQuery = Ok encoded →
  url_of template searchQuery = Ok (template ++ encoded).
Proof. unfold url_of. by intros ->. Qed.

(** A text without surrogate code units is always encoded, so that the
    handler succeeds whenever the provider answers such a text. *)
Lemma encodeURIComponent_no_surrogates s :
  Forall (λ c, is_lead_surrogate c = false ∧ is_trail_surrogate c = false) s →
  ∃ encoded, encodeURIComponent s = Ok encoded.
Proof.
  induction 1 as [|c s [Hlead Htrail] _ [r IH]]; [by eexists|].
  cbn [encodeURIComponent]. rewrite IH, Hlead, Htrail.
  destruct (is_uri_unreserved c); by eexists.
Qed.

Lemma trim_start_Forall (P : N → Prop) s : Forall P s → Forall P (trim_start s).
Proof.
  induction 1 as [|c s Hc Hs IH]; simpl; [done|].
  destruct (is_white_space c); [done | by constructor].
Qed.

Lemma trim_Forall (P : N → Prop) s : Forall P s → Forall P (trim s).
Proof.
  intros Hs. unfold trim, trim_end.
  by apply Forall_reverse, trim_start_Forall, Forall_reverse, trim_start_Forall.
Qed.

(** C7: in every successful find-recipe-video response the URLs are the
    fixed templates followed by [encodeURIComponent(searchQuery)]; for
    the query ["chicken tikka masala recipe tutorial"] the search URL is
    the one with [%20] for each space. *)
Theorem video_urls_derived_from_search_query
    provider (req_body : gmap string value) res w :
  fst (find_recipe_video provider req_body w) = Ok res → status res = 200 →
  (∃ searchQuery embedUrl searchUrl,
     url_of embed_template searchQuery = Ok embedUrl
     ∧ url_of search_template searchQuery = Ok searchUrl
     ∧ content res
       = Json (VObject [("searchQuery", VString searchQuery);
                        ("youtubeEmbedUrl", VString embedUrl);
                        ("youtubeFirstResultUrl", VString embedUrl);
                        ("youtubeSearchUrl", VString searchUrl)]))
  ∧ url_of search_template tikka_query
    = Ok (lit "https://www.youtube.com/results?search_query=chicken%20tikka%20masala%20recipe%20tutorial").
Proof.
  intros Hres Hok. split; [|reflexivity].
  destruct (find_recipe_video_success _ _ _ _ Hres Hok)
    as (text & encoded & _ & _ & Henc & ->).
  exists (trim text), (embed_template ++ encoded), (search_template ++ encoded).
  by rewrite !(url_of_encoded _ _ _ Henc).
Qed.

Lemma video_urls_derived_from_search_query_witness :
  (∃ searchQuery embedUrl searchUrl,
     url_of embed_template searchQuery = Ok embedUrl
     ∧ url_of search_template searchQuery = Ok searchUrl
     ∧ content (video_result tikka_query
                  (lit "chicken%20tikka%20masala%20recipe%20tutorial"))
       = Json (VObject [("searchQuery", VString searchQuery);
                        ("youtubeEmbedUrl", VString embedUrl);
                        ("youtubeFirstResultUrl", VString embedUrl);
                        ("youtubeSearchUrl", VString searchUrl)]))
  ∧ url_of search_template tikka_query
    = Ok (lit "https://www.youtube.com/results?search_query=chicken%20tikka%20masala%20recipe%20tutorial").
Proof.
  apply (video_urls_derived_from_search_query
           (answering (lit "  chicken tikka masala recipe tutorial "))
           tikka_body _ empty_world);
    reflexivity.
Defined.

(** C8: a find-recipe-video request whose body has no [recipeName] field
    is answered 400 and the inference provider is not called; and the
    [searchQuery] of a successful response is the provider's text with
    the white space at both ends removed. *)
Theorem video_query_validated_and_trimmed
    provider (req_body : gmap string value) w :
  (req_body !! "recipeName" = None →
   find_recipe_video provider req_body w
   = (Ok (json 400 [("error", str "Recipe name is required")]), w)
   ∧ provider_calls (snd (find_recipe_video provider req_body w)) = provider_calls w)
  ∧ (∀ res, fst (find_recipe_video provider req_body w) = Ok res →
            status res = 200 →
            ∃ text rest,
              provider (video_request req_body) = Ok text
              ∧ content res
                = Json (VObject (("searchQuery", VString (trim text)) :: rest))).
Proof.
  split.
  - intros Hmiss.
    rewrite find_recipe_video_cases, (prop_missing _ _ Hmiss). done.
  - intros res Hres Hok.
    destruct (find_recipe_video_success _ _ _ _ Hres Hok)
      as (text & encoded & _ & Hprov & _ & ->).
    exists text. by eexists.
Qed.

Lemma video_query_validated_and_trimmed_witness :
  (find_recipe_video (answering (lit " pad thai recipe tutorial ")) ∅ empty_world
   = (Ok (json 400 [("error", str "Recipe name is required")]), empty_world)
   ∧ provider_calls
       (snd (find_recipe_video (answering (lit " pad thai recipe tutorial ")) ∅
               empty_world))
     = provider_calls empty_world)
  ∧ (∃ text rest,
       answering (lit " pad thai recipe tutorial ") (video_request tikka_body) = Ok text
       ∧ content (video_result (lit "pad thai recipe tutorial")
                    (lit "pad%20thai%20recipe%20tutorial"))
         = Json (VObject (("searchQuery", VString (trim text)) :: rest))).
Proof.
  split.
  - apply (video_query_validated_and_trimmed
             (answering (lit " pad thai recipe tutorial ")) ∅ empty_world).
    reflexivity.
  - apply (video_query_validated_and_trimmed
             (answering (lit " pad thai recipe tutorial ")) tikka_body empty_world);
      reflexivity.
Defined.

(** C10: in every successful find-recipe-video response the fields
    [youtubeEmbedUrl] and [youtubeFirstResultUrl] hold the same string,
    the nocookie embed template applied to the encoded search query. *)
Theorem embed_and_first_result_urls_equal
    provider (req_body : gmap string value) res w :
  fst (find_recipe_video provider req_body w) = Ok res → status res = 200 →
  ∃ searchQuery encoded url searchUrl,
    content res
    = Json (VObject [("searchQuery", searchQuery);
                     ("youtubeEmbedUrl", VString url);
                     ("youtubeFirstResultUrl", VString url);
                     ("youtubeSearchUrl", searchUrl)])
    ∧ url = lit "https://www.youtube-nocookie.com/embed?search=" ++ encoded.
Proof.
  intros Hres Hok.
  destruct (find_recipe_video_success _ _ _ _ Hres Hok)
    as (text & encoded & _ & _ & _ & ->).
  by eexists _, encoded, _, _.
Qed.

Lemma embed_and_first_result_urls_equal_witness :
  ∃ searchQuery encoded url searchUrl,
    content (video_result tikka_query
               (lit "chicken%20tikka%20masala%20recipe%20tutorial"))
    = Json (VObject [("searchQuery", searchQuery);
                     ("youtubeEmbedUrl", VString url);
                     ("youtubeFirstResultUrl", VString url);
                     ("youtubeSearchUrl", searchUrl)])
    ∧ url = lit "https://www.youtube-nocookie.com/embed?search=" ++ encoded.
Proof.
  apply (embed_and_first_result_urls_equal
           (answering (lit "chicken tikka masala recipe tutorial"))
           tikka_body _ empty_world);
    reflexivity.
Defined.

(** * Further properties of the code *)

(** ** The ingredient parser, beyond its definition *)

Lemma trim_nil_iff f : trim f = [] ↔ Spec.all_white f.
Proof.
  split.
  - intros Hnil. destruct (trim_trimmed f) as (l & r & Hf & Hl & Hr & _).
    rewrite Hnil in Hf. rewrite Hf. by apply Forall_app.
  - intros Hw. unfold trim. by rewrite (trim_start_all_white f).
Qed.

Lemma trim_clean t : Spec.no_white_ends t → trim t = t.
Proof.
  intros [Hhead Hlast]. unfold trim.
  rewrite trim_start_id by done. by apply trim_end_id.
Qed.

Lemma split_all_white text :
  Forall Spec.all_white (split comma text) ↔ Forall comma_or_white text.
Proof.
  induction text as [|c s IH]; simpl.
  - split; intros _; repeat constructor.
  - pose proof (split_not_nil comma s) as Hnn.
    rewrite Forall_cons. destruct (N.eqb_spec c comma) as [->|Hne].
    + rewrite Forall_cons, IH. unfold comma_or_white at 2.
      split; [intros [_ ?] | intros [_ ?]]; (split; [|done]);
        [by left | constructor].
    + destruct (split comma s) as [|f fs]; [done|].
      rewrite Forall_cons in IH. rewrite Forall_cons.
      unfold Spec.all_white at 1. rewrite Forall_cons.
      fold (Spec.all_white f). rewrite <- IH. unfold comma_or_white.
      tauto.
Qed.

(** X1: every ingredient the parser returns is non-empty, holds no
    comma and has no white space at either end. *)
Theorem parse_ingredients_items_clean (text : jsstring) :
  Forall clean_item (parse_ingredients text).
Proof.
  apply Forall_forall. intros t Ht. by apply (parse_ingredients_item text).
Qed.

(** X2: the parser returns the empty list exactly for the texts made of
    commas and white space only (the empty text among them). *)
Theorem parse_ingredients_nil_iff (text : jsstring) :
  parse_ingredients text = [] ↔ Forall comma_or_white text.
Proof.
  rewrite <- split_all_white. unfold parse_ingredients.
  induction (split comma text) as [|f fs IH]; simpl.
  - split; [constructor | done].
  - rewrite Forall_cons, <- IH, <- trim_nil_iff.
    destruct (trim f) as [|c t]; simpl; [tauto|].
    split; [done | by intros [? _]].
Qed.

Lemma to_string_string_array items :
  to_string (VArray (map VString items)) = join comma items.
Proof.
  cbn [to_string]. f_equal. induction items as [|t ts IH]; [done|].
  cbn [map]. by rewrite IH.
Qed.

Lemma parse_join_clean items :
  Forall clean_item items → parse_ingredients (join comma items) = items.
Proof.
  intros Hclean. destruct (decide (items = [])) as [->|Hnn]; [done|].
  unfold parse_ingredients. rewrite split_join; [|done|].
  - induction Hclean as [|t ts (Hne & _ & Hends) _ IH]; [done|].
    cbn [map List.filter]. rewrite (trim_clean t Hends).
    destruct t as [|c t]; [done|]. cbn.
    destruct ts as [|u us]; [done|]. f_equal. by apply IH.
  - eapply Forall_impl; [exact Hclean|]. by intros t (_ & ? & _).
Qed.

(** X3: the list of one analyze-image response, sent back as the
    [ingredients] of a generate-recipe request, is written into the
    prompt as a comma-separated text, and parsing that text gives the
    list again. *)
Theorem parse_ingredients_round_trip (text : jsstring) :
  let items := parse_ingredients text in
  to_string (VArray (map VString items)) = join comma items
  ∧ parse_ingredients (to_string (VArray (map VString items))) = items.
Proof.
  cbn zeta. rewrite to_string_string_array. split; [done|].
  apply parse_join_clean, parse_ingredients_items_clean.
Qed.

(** ** [encodeURIComponent] and base64, beyond their definitions *)

Ltac bool_lia :=
  repeat match goal with
         | H : _ && _ = true |- _ => apply andb_true_iff in H as [? ?]
         | H : _ || _ = false |- _ => apply orb_false_iff in H as [? ?]
         | H : (_ <=? _)%N = true |- _ => apply N.leb_le in H
         | H : (_ <=? _)%N = false |- _ => apply N.leb_gt in H
         | H : (_ <? _)%N = true |- _ => apply N.ltb_lt in H
         | H : (_ <? _)%N = false |- _ => apply N.ltb_ge in H
         | H : (_ =? _)%N = true |- _ => apply N.eqb_eq in H
         | H : (_ =? _)%N = false |- _ => apply N.eqb_neq in H
         end;
  repeat first
    [ rewrite andb_true_iff | rewrite orb_true_iff
    | rewrite andb_false_iff | rewrite orb_false_iff
    | rewrite N.leb_le | rewrite N.leb_gt | rewrite N.ltb_lt | rewrite N.ltb_ge
    | rewrite N.eqb_eq | rewrite N.eqb_neq ];
  lia.

(** Induction along the way [encodeURIComponent] walks a string: one
    code unit at a time, or two for a surrogate pair. *)
Lemma code_point_ind (P : jsstring → Prop) :
  P [] →
  (∀ c s, P s → (∀ d s', s = d :: s' → P s') → P (c :: s)) →
  ∀ s, P s.
Proof.
  intros Hnil Hcons s.
  enough (P s ∧ (∀ d s', s = d :: s' → P s')) as [? _] by done.
  induction s as [|c s [IH1 IH2]]; [by split|].
  split; [by apply Hcons|]. by intros d s' [= _ <-].
Qed.

(** A property checked on every number below [k] by running it. *)
Lemma checked_below (P : N → bool) (k : nat) :
  forallb (λ n, P (N.of_nat n)) (seq 0 k) = true →
  ∀ b, (b < N.of_nat k)%N → P b = true.
Proof.
  intros Hall b Hb. rewrite forallb_forall in Hall.
  rewrite <- (N2Nat.id b). apply Hall, in_seq. lia.
Qed.

Lemma percent_octet_safe b :
  (b < 256)%N → forallb is_url_safe (percent_octet b) = true.
Proof.
  apply (checked_below (λ b, forallb is_url_safe (percent_octet b)) 256).
  by vm_compute.
Qed.

Lemma lead_octet_bound hi n k cp :
  (cp < 2 ^ n * N.of_nat k)%N →
  forallb (λ z, N.lor hi (N.of_nat z) <? 256)%N (seq 0 k) = true →
  (N.lor hi (N.shiftr cp n) < 256)%N.
Proof.
  intros Hcp Hall. apply N.ltb_lt.
  apply (checked_below (λ z, N.lor hi z <? 256)%N k Hall).
  rewrite N.shiftr_div_pow2. apply N.Div0.div_lt_upper_bound. lia.
Qed.

Lemma continuation_octet_bound y : (N.lor 0x80 (N.land y 0x3F) < 256)%N.
Proof.
  apply N.ltb_lt.
  apply (checked_below (λ z, N.lor 0x80 z <? 256)%N 64); [by vm_compute|].
  change 0x3F%N with (N.ones 6). rewrite N.land_ones.
  by apply N.mod_lt.
Qed.

Lemma utf8_octets_bytes cp :
  (cp < 0x110000)%N → Forall (λ b, (b < 256)%N) (utf8_octets cp).
Proof.
  intros Hcp. unfold utf8_octets.
  destruct (cp <? 0x80)%N eqn:H1; [repeat constructor; bool_lia|].
  destruct (cp <? 0x800)%N eqn:H2.
  { repeat constructor; [|apply continuation_octet_bound].
    apply (lead_octet_bound _ 6 32); [bool_lia | by vm_compute]. }
  destruct (cp <? 0x10000)%N eqn:H3.
  { repeat constructor; try apply continuation_octet_bound.
    apply (lead_octet_bound _ 12 16); [bool_lia | by vm_compute]. }
  repeat constructor; try apply continuation_octet_bound.
  apply (lead_octet_bound _ 18 5); [bool_lia | by vm_compute].
Qed.

Lemma escape_code_point_safe cp :
  (cp < 0x110000)%N → Forall (λ c, is_url_safe c = true) (escape_code_point cp).
Proof.
  intros Hcp. unfold escape_code_point.
  induction (utf8_octets_bytes cp Hcp) as [|b bs Hb _ IH]; [constructor|].
  cbn [map concat]. apply Forall_app. split; [|done].
  apply Forall_forall. intros c Hc%list_elem_of_In.
  pose proof (percent_octet_safe b Hb) as Hsafe.
  rewrite forallb_forall in Hsafe. by apply Hsafe.
Qed.

Lemma surrogate_pair_bound c d :
  is_lead_surrogate c = true → is_trail_surrogate d = true →
  (surrogate_pair c d < 0x110000)%N.
Proof.
  unfold is_lead_surrogate, is_trail_surrogate, surrogate_pair.
  intros Hc Hd. bool_lia.
Qed.

Ltac encode_step H :=
  cbn [encodeURIComponent] in H;
  repeat match type of H with
         | context [if ?b then _ else _] => destruct b eqn:?
         | context [match encodeURIComponent ?s with _ => _ end] =>
             destruct (encodeURIComponent s) eqn:?
         | context [match ?s with [] => _ | _ :: _ => _ end] => destruct s
         end;
  try discriminate H.

(** X4: the result of [encodeURIComponent] on a well-formed string holds
    nothing but unreserved characters and [%]: no space, no [&], [=],
    [#], [/] or [?] that would break the query part of a URL. *)
Theorem encodeURIComponent_url_safe (s encoded : jsstring) :
  well_formed s → encodeURIComponent s = Ok encoded →
  Forall (λ c, is_url_safe c = true) encoded.
Proof.
  revert encoded. induction s as [|c s IH IH2] using code_point_ind;
    intros encoded Hwf Henc.
  - injection Henc as <-. constructor.
  - apply Forall_cons in Hwf as [Hc Hwf].
    encode_step Henc; injection Henc as <-.
    + constructor; [|by apply IH]. unfold is_url_safe.
      by match goal with H : is_uri_unreserved c = true |- _ => rewrite H end.
    + apply Forall_cons in Hwf as [_ Hwf].
      apply Forall_app. split; [by apply escape_code_point_safe, surrogate_pair_bound|].
      by apply (IH2 _ _ eq_refl).
    + apply Forall_app. split; [|by apply IH].
      apply escape_code_point_safe. unfold well_formed in *. lia.
Qed.

Lemma encodeURIComponent_url_safe_witness :
  Forall (λ c, is_url_safe c = true)
    (lit "caf%C3%A9%20%26%20cr%C3%A8me%20%F0%9F%98%80").
Proof.
  apply (encodeURIComponent_url_safe
           (lit "caf" ++ [0xE9] ++ lit " & cr" ++ [0xE8] ++ lit "me "
              ++ [0xD83D; 0xDE00])%N).
  - unfold well_formed. repeat constructor.
  - reflexivity.
Defined.

(** X5: on an ASCII string [encodeURIComponent] never throws and works
    one character at a time: an unreserved character stays, any other
    becomes the [%XX] of its code. *)
Theorem encodeURIComponent_ascii (s : jsstring) :
  Forall (λ c, (c < 0x80)%N) s →
  encodeURIComponent s = Ok (concat (map escape_unit s)).
Proof.
  induction 1 as [|c s Hc _ IH]; [done|].
  cbn [encodeURIComponent map concat]. rewrite IH. unfold escape_unit.
  destruct (is_uri_unreserved c); [done|].
  assert (is_lead_surrogate c = false) as ->
    by (unfold is_lead_surrogate; bool_lia).
  assert (is_trail_surrogate c = false) as ->
    by (unfold is_trail_surrogate; bool_lia).
  unfold escape_code_point, utf8_octets.
  rewrite (proj2 (N.ltb_lt _ _) Hc). cbn [map concat]. by rewrite app_nil_r.
Qed.

Lemma encodeURIComponent_ascii_witness :
  encodeURIComponent (lit "mac & cheese?")
  = Ok (concat (map escape_unit (lit "mac & cheese?"))).
Proof.
  apply (encodeURIComponent_ascii (lit "mac & cheese?")).
  repeat constructor.
Defined.

Lemma encodeURIComponent_throws s e :
  encodeURIComponent s = Throw e → e = uri_error.
Proof.
  induction s as [|c s IH IH2] using code_point_ind; intros Henc; [done|].
  encode_step Henc; try (by injection Henc as <-); try (by apply IH).
  injection Henc as <-. by apply (IH2 _ _ eq_refl).
Qed.

Lemma thirds_ind (P : list N → Prop) :
  P [] → (∀ a, P [a]) → (∀ a b, P [a; b]) →
  (∀ a b c rest, P rest → P (a :: b :: c :: rest)) →
  ∀ bytes, P bytes.
Proof.
  intros H0 H1 H2 H3. fix IH 1.
  intros [|a [|b [|c rest]]]; [done..|]. apply H3, IH.
Qed.

Lemma base64_char_alphabet n : is_base64_char (base64_char n) = true.
Proof.
  unfold base64_char, is_base64_char.
  destruct (n <? 26)%N eqn:H1; [bool_lia|].
  destruct (n <? 52)%N eqn:H2; [bool_lia|].
  destruct (n <? 62)%N eqn:H3; [bool_lia|].
  destruct (n =? 62)%N; reflexivity.
Qed.

(** X6: the base64 text the handler sends to the provider has four
    characters for every three bytes of the image, the last group
    rounded up, and holds only characters of the base64 alphabet and
    the padding [=]. *)
Theorem base64_length_and_alphabet (bytes : list N) :
  List.length (base64 bytes) = 4 * Nat.div (List.length bytes + 2) 3
  ∧ Forall (λ c, is_base64_char c = true) (base64 bytes).
Proof.
  induction bytes as [| a | a b | a b c rest [IHlen IHall]] using thirds_ind.
  - split; [done | constructor].
  - split; [done|]. repeat constructor; apply base64_char_alphabet.
  - split; [done|]. repeat constructor; apply base64_char_alphabet.
  - split.
    + cbn [base64 List.length app]. rewrite IHlen.
      replace (S (S (S (List.length rest))) + 2)
        with ((List.length rest + 2) + 1 * 3) by lia.
      rewrite Nat.div_add by lia. lia.
    + cbn [base64 app]. repeat (constructor; [apply base64_char_alphabet|]).
      done.
Qed.

(** ** The handlers, beyond the claims *)

(** Every path through a JSON handler: validation, the template, the
    provider and, for the video, the encoding. *)
Ltac recipe_paths provider :=
  rewrite generate_recipe_cases;
  destruct (truthy _);
    [destruct (recipe_convertible _); [destruct (provider _)|]|].

Ltac video_paths provider :=
  rewrite find_recipe_video_cases;
  destruct (truthy _);
    [destruct (video_convertible _);
       [destruct (provider _); [destruct (encodeURIComponent _)|]|]|].

(** X7: [removeFile] never throws.  Afterwards the file is not in the
    store, every other file is as it was, the provider has not been
    called, and [console.error] has one more entry exactly if the file
    was not there to remove. *)
Theorem removeFile_never_throws (filePath : string) (w : world) :
  let w' := snd (removeFile filePath w) in
  fst (removeFile filePath w) = Ok tt
  ∧ files w' !! filePath = None
  ∧ (∀ other, other ≠ filePath → files w' !! other = files w !! other)
  ∧ provider_calls w' = provider_calls w
  ∧ console w'
    = match files w !! filePath with
      | Some _ => console w
      | None => console w ++ [(lit "Error removing file:", enoent "unlink" filePath)]
      end.
Proof.
  unfold removeFile, try_catch, unlinkSync, console_error.
  destruct (files w !! filePath) as [data|] eqn:Hfile; cbn.
  - repeat split; [apply lookup_delete_eq|].
    intros other Hne. by apply lookup_delete_ne.
  - by rewrite Hfile.
Qed.

(** X8: no handler lets an exception escape: each run ends with a
    response, of status 200, 400 or 500. *)
Theorem handlers_always_respond provider (w : world) :
  (∀ req_file, answered (analyze_image provider req_file w) [200; 400; 500])
  ∧ (∀ req_body, answered (generate_recipe provider req_body w) [200; 400; 500])
  ∧ (∀ req_body, answered (find_recipe_video provider req_body w) [200; 400; 500]).
Proof.
  unfold answered. split; [|split].
  - intros [file|]; [|eexists; split; [done | set_solver]].
    rewrite analyze_image_cases.
    destruct (files w !! path file) as [data|];
      [destruct (provider _)|]; eexists; (split; [done | set_solver]).
  - intros req_body. recipe_paths provider; eexists; (split; [done | set_solver]).
  - intros req_body. video_paths provider; eexists; (split; [done | set_solver]).
Qed.

(** X9: a handler calls the provider exactly once when its input passes
    validation and the request can be built (the staged file can be
    read; every field the prompt interpolates converts to a string),
    and not at all otherwise; a failed call is not tried again. *)
Theorem provider_called_once_when_valid provider (w : world) :
  (∀ req_file,
     provider_calls (snd (analyze_image provider req_file w))
     = match req_file with
       | Some file =>
           match files w !! path file with
           | Some data => provider_calls w ++ [analyze_request file data]
           | None => provider_calls w
           end
       | None => provider_calls w
       end)
  ∧ (∀ req_body,
       provider_calls (snd (generate_recipe provider req_body w))
       = if truthy (prop req_body "ingredients")
         then match recipe_template (prop req_body "ingredients")
                      (prop req_body "cuisine")
                      (prop req_body "dietaryRestrictions") with
              | Ok prompt => provider_calls w ++ [[TextPart prompt]]
              | Throw _ => provider_calls w
              end
         else provider_calls w)
  ∧ (∀ req_body,
       provider_calls (snd (find_recipe_video provider req_body w))
       = if truthy (prop req_body "recipeName")
         then match video_template (prop req_body "recipeName")
                      (prop req_body "ingredients")
                      (prop req_body "cuisine") with
              | Ok prompt => provider_calls w ++ [[TextPart prompt]]
              | Throw _ => provider_calls w
              end
         else provider_calls w).
Proof.
  split; [|split].
  - intros [file|]; [|done]. rewrite analyze_image_cases.
    destruct (files w !! path file) as [data|]; [|done].
    by destruct (provider _).
  - intros req_body. rewrite recipe_template_spec. by recipe_paths provider.
  - intros req_body. rewrite video_template_spec. by video_paths provider.
Qed.

(** X10: the two JSON handlers never touch the uploads directory. *)
Theorem json_handlers_leave_files provider (req_body : gmap string value) (w : world) :
  files (snd (generate_recipe provider req_body w)) = files w
  ∧ files (snd (find_recipe_video provider req_body w)) = files w.
Proof.
  split; [by recipe_paths provider | by video_paths provider].
Qed.

(** X11: a handler writes to [console.error] exactly when it answers
    500, and what it logs is the error whose message the response
    carries as [details]. *)
Theorem failures_are_logged provider (w : world) :
  (∀ req_file,
     logs_failures "Error analyzing image:" "Failed to analyze image"
       (analyze_image provider req_file w) w)
  ∧ (∀ req_body,
       logs_failures "Error generating recipe:" "Failed to generate recipe"
         (generate_recipe provider req_body w) w)
  ∧ (∀ req_body,
       logs_failures "Error finding recipe video:" "Failed to find recipe video"
         (find_recipe_video provider req_body w) w).
Proof.
  unfold logs_failures. split; [|split].
  - intros [file|]; [|eexists; split; [done|]; left; by cbn].
    rewrite analyze_image_cases.
    destruct (files w !! path file) as [data|];
      [destruct (provider _)|]; eexists; (split; [done|]);
      first [left; by cbn | right; by eexists].
  - intros req_body.
    recipe_paths provider; eexists; (split; [done|]);
      first [left; by cbn | right; by eexists].
  - intros req_body.
    video_paths provider; eexists; (split; [done|]);
      first [left; by cbn | right; by eexists].
Qed.

(** X12: if the staged file cannot be read the handler answers 500 with
    the ENOENT message of the failed read as [details], and neither
    calls the provider nor changes the uploads directory. *)
Theorem analyze_image_unreadable_file provider (file : file) (w : world) :
  files w !! path file = None →
  let r := analyze_image provider (Some file) w in
  fst r
  = Ok (json 500 [("error", str "Failed to analyze image");
                  ("details",
                   VString (lit "ENOENT: no such file or directory, open '"
                            ++ lit (path file) ++ lit "'"))])
  ∧ provider_calls (snd r) = provider_calls w
  ∧ files (snd r) = files w.
Proof.
  intros Hfile. cbn zeta. by rewrite analyze_image_cases, Hfile.
Qed.

Lemma analyze_image_unreadable_file_witness :
  let r := analyze_image (answering (lit "tomato")) (Some staged_jpeg) empty_world in
  fst r
  = Ok (json 500 [("error", str "Failed to analyze image");
                  ("details",
                   VString (lit "ENOENT: no such file or directory, open '"
                            ++ lit (path staged_jpeg) ++ lit "'"))])
  ∧ provider_calls (snd r) = provider_calls empty_world
  ∧ files (snd r) = files empty_world.
Proof.
  apply (analyze_image_unreadable_file (answering (lit "tomato")) staged_jpeg
           empty_world).
  reflexivity.
Defined.

(** X13: an upload with an [image/] MIME type and a size below the limit,
    for which the provider answers: the provider is sent the instruction
    and the base64 of the uploaded bytes under the upload's MIME type,
    once; the response is 200 with the parsed ingredients; and the
    staged file is gone from the uploads directory afterwards. *)
Theorem accepted_upload_analyzed_and_removed
    provider (req : upload_request) (p : file_part) (text : jsstring) (w : world) :
  image req = Some p →
  starts_with (lit "image/") (part_mimetype p) = true →
  (N.of_nat (List.length (part_data p)) < limits_fileSize upload)%N →
  provider [TextPart analyze_instruction;
            InlineData (part_mimetype p) (base64 (part_data p))] = Ok text →
  let r := post_analyze_image provider req w in
  fst r = json 200 [("ingredients", VArray (map VString (parse_ingredients text)))]
  ∧ files (snd r) = delete (destination req) (files w)
  ∧ provider_calls (snd r)
    = provider_calls w ++ [[TextPart analyze_instruction;
                            InlineData (part_mimetype p) (base64 (part_data p))]]
  ∧ console (snd r) = console w.
Proof.
  intros Himg Hmime Hsize Hprov. cbn zeta. unfold post_analyze_image.
  rewrite (single_stages_image req p w Himg Hmime) by lia.
  rewrite analyze_image_cases. cbn [path mimetype set_files files].
  rewrite lookup_insert_eq. unfold analyze_request. cbn [path mimetype].
  rewrite Hprov. cbn. by rewrite delete_insert_eq.
Qed.

Lemma accepted_upload_analyzed_and_removed_witness :
  let r := post_analyze_image (answering (lit "tomato, onion")) jpeg_upload empty_world in
  fst r = json 200 [("ingredients",
                     VArray (map VString (parse_ingredients (lit "tomato, onion"))))]
  ∧ files (snd r) = delete (destination jpeg_upload) (files empty_world)
  ∧ provider_calls (snd r)
    = provider_calls empty_world
      ++ [[TextPart analyze_instruction;
           InlineData (part_mimetype jpeg_part) (base64 (part_data jpeg_part))]]
  ∧ console (snd r) = console empty_world.
Proof.
  apply (accepted_upload_analyzed_and_removed
           (answering (lit "tomato, onion")) jpeg_upload jpeg_part
           (lit "tomato, onion") empty_world);
    reflexivity.
Defined.

Lemma single_upload_outcomes req w :
  (∃ r, single upload req w = (r, w) ∧ ∀ f, r ≠ Ok (Some f))
  ∨ (∃ p, single upload req w
          = (Ok (Some (File (destination req) (part_mimetype p))),
             set_files (<[destination req := part_data p]> (files w)) w)).
Proof.
  unfold single. destruct (image req) as [p|]; [|left; by eexists].
  cbn [upload fileFilter].
  destruct (starts_with _ _); [|left; by eexists].
  destruct (_ <? _)%N; [left; by eexists|]. right. by exists p.
Qed.

(** X14: whatever the upload and whatever the provider does, a request
    to the analyze-image route changes no file of the uploads directory
    other than the one it stages. *)
Theorem analyze_route_touches_only_staged_file
    provider (req : upload_request) (w : world) (other : string) :
  other ≠ destination req →
  files (snd (post_analyze_image provider req w)) !! other = files w !! other.
Proof.
  intros Hne. unfold post_analyze_image.
  destruct (single_upload_outcomes req w) as [(r & -> & Hr) | (p & ->)].
  - destruct r as [[f|]|e]; [by destruct (Hr f)|done..].
  - rewrite analyze_image_cases. cbn [path mimetype set_files files].
    rewrite lookup_insert_eq.
    destruct (provider _); cbn; [rewrite lookup_delete_ne by done|];
      by rewrite lookup_insert_ne.
Qed.

Lemma analyze_route_touches_only_staged_file_witness :
  files (snd (post_analyze_image (failing (lit "fetch failed")) text_upload
                staged_world))
    !! destination jpeg_upload
  = files staged_world !! destination jpeg_upload.
Proof.
  apply (analyze_route_touches_only_staged_file
           (failing (lit "fetch failed")) text_upload staged_world
           (destination jpeg_upload)).
  discriminate.
Defined.

(** X15: the two JSON handlers validate by truthiness: the answer is 400
    exactly when the required field is missing or falsy (the empty
    string, [null], [false], a zero). *)
Theorem required_field_checked_by_truthiness
    provider (req_body : gmap string value) (w : world) :
  (∃ res, fst (generate_recipe provider req_body w) = Ok res
          ∧ (status res = 400 ↔ truthy (prop req_body "ingredients") = false))
  ∧ (∃ res, fst (find_recipe_video provider req_body w) = Ok res
            ∧ (status res = 400 ↔ truthy (prop req_body "recipeName") = false)).
Proof.
  split; [recipe_paths provider | video_paths provider]; by eexists.
Qed.

(** X16: when the ingredients are given, the prompt can be built and the
    provider answers, the response is 200 with the provider's text as
    [recipe], character for character, after a single call with that
    prompt. *)
Theorem recipe_returned_verbatim
    provider (req_body : gmap string value) (prompt text : jsstring) (w : world) :
  truthy (prop req_body "ingredients") = true →
  recipe_template (prop req_body "ingredients") (prop req_body "cuisine")
                  (prop req_body "dietaryRestrictions") = Ok prompt →
  provider [TextPart prompt] = Ok text →
  generate_recipe provider req_body w
  = (Ok (json 200 [("recipe", VString text)]),
     log_call [TextPart prompt] w).
Proof.
  intros Hingr [Hconv Hreq]%recipe_template_ok Hprov. rewrite Hreq in *.
  by rewrite generate_recipe_cases, Hingr, Hconv, Hprov.
Qed.

Lemma recipe_returned_verbatim_witness :
  generate_recipe (answering untrimmed_recipe) eggs_body empty_world
  = (Ok (json 200 [("recipe", VString untrimmed_recipe)]),
     log_call [TextPart (recipe_prompt (str "eggs, flour") VUndefined VUndefined)]
       empty_world).
Proof.
  apply (recipe_returned_verbatim (answering untrimmed_recipe) eggs_body
           (recipe_prompt (str "eggs, flour") VUndefined VUndefined)
           untrimmed_recipe empty_world); reflexivity.
Defined.

(** X17: when the recipe name is given, the prompt can be built and the
    provider answers a text without surrogate code units (any ASCII
    text, for one), the handler answers 200 with the trimmed text and
    the three URLs, after a single provider call. *)
Theorem video_found_for_plain_text
    provider (req_body : gmap string value) (prompt text : jsstring) (w : world) :
  truthy (prop req_body "recipeName") = true →
  video_template (prop req_body "recipeName") (prop req_body "ingredients")
                 (prop req_body "cuisine") = Ok prompt →
  provider [TextPart prompt] = Ok text →
  no_surrogates text →
  ∃ encoded,
    encodeURIComponent (trim text) = Ok encoded
    ∧ find_recipe_video provider req_body w
      = (Ok (video_result (trim text) encoded), log_call [TextPart prompt] w).
Proof.
  intros Hname [Hconv Hreq]%video_template_ok Hprov Htext. rewrite Hreq in *.
  destruct (encodeURIComponent_no_surrogates (trim text)) as [encoded Henc];
    [by apply trim_Forall|].
  exists encoded. split; [done|].
  by rewrite find_recipe_video_cases, Hname, Hconv, Hprov, Henc.
Qed.

Lemma video_found_for_plain_text_witness :
  ∃ encoded,
    encodeURIComponent (trim (lit " pad thai recipe ")) = Ok encoded
    ∧ find_recipe_video (answering (lit " pad thai recipe ")) tikka_body empty_world
      = (Ok (video_result (trim (lit " pad thai recipe ")) encoded),
         log_call [TextPart (video_prompt (str "Chicken Tikka Masala")
                               VUndefined VUndefined)] empty_world).
Proof.
  apply (video_found_for_plain_text (answering (lit " pad thai recipe "))
           tikka_body
           (video_prompt (str "Chicken Tikka Masala") VUndefined VUndefined)
           (lit " pad thai recipe ") empty_world);
    [reflexivity | reflexivity | reflexivity
    | unfold no_surrogates; repeat constructor].
Defined.

(** X18: when the provider has answered and its text, once trimmed,
    cannot be encoded (it holds a surrogate code unit without its
    pair), the handler answers 500 with error ["Failed to find recipe
    video"] and details ["URI malformed"]; the provider has been called
    once by then. *)
Theorem video_query_unencodable
    provider (req_body : gmap string value) (prompt text : jsstring) (e : exn)
    (w : world) :
  truthy (prop req_body "recipeName") = true →
  video_template (prop req_body "recipeName") (prop req_body "ingredients")
                 (prop req_body "cuisine") = Ok prompt →
  provider [TextPart prompt] = Ok text →
  encodeURIComponent (trim text) = Throw e →
  let r := find_recipe_video provider req_body w in
  fst r = Ok (json 500 [("error", str "Failed to find recipe video");
                        ("details", str "URI malformed")])
  ∧ provider_calls (snd r) = provider_calls w ++ [[TextPart prompt]].
Proof.
  intros Hname [Hconv Hreq]%video_template_ok Hprov Henc. rewrite Hreq in *.
  cbn zeta. rewrite find_recipe_video_cases, Hname, Hconv, Hprov, Henc.
  by rewrite (encodeURIComponent_throws _ _ Henc).
Qed.

Lemma video_query_unencodable_witness :
  let r := find_recipe_video (answering lone_surrogate_text) tikka_body empty_world in
  fst r = Ok (json 500 [("error", str "Failed to find recipe video");
                        ("details", str "URI malformed")])
  ∧ provider_calls (snd r)
    = provider_calls empty_world
      ++ [[TextPart (video_prompt (str "Chicken Tikka Masala")
                       VUndefined VUndefined)]].
Proof.
  apply (video_query_unencodable (answering lone_surrogate_text) tikka_body
           (video_prompt (str "Chicken Tikka Masala") VUndefined VUndefined)
           lone_surrogate_text uri_error empty_world);
    reflexivity.
Defined.

(** X19: when the provider is called and throws, the analyze-image
    handler answers 500 with error ["Failed to analyze image"] and the
    find-recipe-video handler 500 with error ["Failed to find recipe
    video"], each with the message of the thrown error as [details]. *)
Theorem provider_failure_in_analyze_and_video provider (e : exn) (w : world) :
  (∀ file data,
     files w !! path file = Some data →
     provider (analyze_request file data) = Throw e →
     fst (analyze_image provider (Some file) w)
     = Ok (json 500 [("error", str "Failed to analyze image");
                     ("details", VString (message e))]))
  ∧ (∀ req_body prompt,
       truthy (prop req_body "recipeName") = true →
       video_template (prop req_body "recipeName") (prop req_body "ingredients")
                      (prop req_body "cuisine") = Ok prompt →
       provider [TextPart prompt] = Throw e →
       fst (find_recipe_video provider req_body w)
       = Ok (json 500 [("error", str "Failed to find recipe video");
                       ("details", VString (message e))])).
Proof.
  split.
  - intros file data Hfile Hprov.
    by rewrite analyze_image_cases, Hfile, Hprov.
  - intros req_body prompt Hname [Hconv Hreq]%video_template_ok Hprov.
    rewrite Hreq in *.
    by rewrite find_recipe_video_cases, Hname, Hconv, Hprov.
Qed.

Lemma provider_failure_in_analyze_and_video_witness :
  fst (analyze_image (failing (lit "quota exceeded")) (Some staged_jpeg) staged_world)
  = Ok (json 500 [("error", str "Failed to analyze image");
                  ("details", str "quota exceeded")])
  ∧ fst (find_recipe_video (failing (lit "quota exceeded")) tikka_body staged_world)
    = Ok (json 500 [("error", str "Failed to find recipe video");
                    ("details", str "quota exceeded")]).
Proof.
  pose proof (provider_failure_in_analyze_and_video
                (failing (lit "quota exceeded")) (Error (lit "quota exceeded"))
                staged_world) as [Hanalyze Hvideo].
  split.
  - apply (Hanalyze staged_jpeg jpeg_bytes); reflexivity.
  - apply (Hvideo tikka_body
             (video_prompt (str "Chicken Tikka Masala") VUndefined VUndefined));
      reflexivity.
Defined.

(** ** The prompts, beyond the claims *)

Lemma starts_with_app_l p s b :
  starts_with p s = true → starts_with p (s ++ b) = true.
Proof.
  revert s. induction p as [|a p IH]; intros [|c s]; simpl; try done.
  intros [-> Hp]%andb_true_iff. by rewrite IH.
Qed.

Lemma starts_with_refl p : starts_with p p = true.
Proof. induction p as [|a p IH]; simpl; [done|]. by rewrite N.eqb_refl. Qed.

Lemma includes_refl p : includes p p = true.
Proof. destruct p; simpl; [done|]. by rewrite N.eqb_refl, starts_with_refl. Qed.

Lemma includes_cons p c s : includes p s = true → includes p (c :: s) = true.
Proof. intros Hs. cbn [includes]. rewrite Hs. apply orb_true_r. Qed.

Lemma includes_app_r p a s : includes p s = true → includes p (a ++ s) = true.
Proof. intros Hs. induction a; [done|]. by apply includes_cons. Qed.

Lemma includes_app_l p s b : includes p s = true → includes p (s ++ b) = true.
Proof.
  induction s as [|c s IH]; cbn [includes app].
  - rewrite orb_false_r. destruct p; [|done]. by destruct b.
  - intros [Hs|Hs]%orb_true_iff; apply orb_true_iff.
    + left. by apply (starts_with_app_l p (c :: s) b).
    + right. by apply IH.
Qed.

Lemma includes_infix p a b : includes p (a ++ p ++ b) = true.
Proof. apply includes_app_r, includes_app_l, includes_refl. Qed.

Lemma strict_ne_false v s : strict_ne v s = false ↔ v = VString s.
Proof.
  destruct v; simpl; try (split; [done | by intros [=]]).
  rewrite negb_false_iff, bool_decide_eq_true. split; [by intros -> | by intros [=]].
Qed.

(** X20: the optional clause of the recipe prompt is left out exactly
    when its field is falsy (missing, [null], empty) or is the string
    ["Any"], respectively ["None"], spelled exactly so. *)
Theorem clause_omitted_iff_falsy_or_sentinel (v : value) :
  (cuisine_clause v = [] ↔ truthy v = false ∨ v = str "Any")
  ∧ (dietary_clause v = [] ↔ truthy v = false ∨ v = str "None").
Proof.
  unfold cuisine_clause, dietary_clause, str. split.
  - rewrite <- strict_ne_false.
    destruct (truthy v), (strict_ne v (lit "Any")); cbn [andb];
      split; try done; try (by intros [?|?]); by (left + right).
  - rewrite <- strict_ne_false.
    destruct (truthy v), (strict_ne v (lit "None")); cbn [andb];
      split; try done; try (by intros [?|?]); by (left + right).
Qed.

(** X21: the recipe prompt quotes the ingredients as [ToString] writes
    them, and for a cuisine or a dietary restriction that is truthy and
    not the sentinel it holds the sentence naming it. *)
Theorem recipe_prompt_carries_inputs (ingredients cuisine dietaryRestrictions : value) :
  let prompt := recipe_prompt ingredients cuisine dietaryRestrictions in
  includes (lit "using these ingredients: " ++ to_string ingredients ++ lit ".")
    prompt = true
  ∧ (truthy cuisine = true → strict_ne cuisine (lit "Any") = true →
     includes (lit "The cuisine should be " ++ to_string cuisine ++ lit ".")
       prompt = true)
  ∧ (truthy dietaryRestrictions = true →
     strict_ne dietaryRestrictions (lit "None") = true →
     includes (lit "Please ensure the recipe is "
               ++ to_string dietaryRestrictions ++ lit ".") prompt = true).
Proof.
  cbn zeta. unfold recipe_prompt, unlines. cbn [app].
  rewrite !join_cons. split; [|split].
  - apply includes_app_l.
    apply (includes_app_r _ (lit "Create a detailed recipe ")), includes_refl.
  - intros Ht Hne. unfold cuisine_clause. rewrite Ht, Hne. cbn [andb].
    apply includes_app_r, includes_cons, includes_app_l, includes_app_r,
      includes_refl.
  - intros Ht Hne. unfold dietary_clause. rewrite Ht, Hne. cbn [andb].
    apply includes_app_r, includes_cons, includes_app_r, includes_cons,
      includes_app_l, includes_app_r, includes_refl.
Qed.

Lemma recipe_prompt_carries_inputs_witness :
  let prompt :=
    recipe_prompt (VArray [str "eggs"; str "rice"]) (str "Thai") (str "vegan") in
  includes (lit "using these ingredients: " ++ lit "eggs,rice" ++ lit ".") prompt = true
  ∧ includes (lit "The cuisine should be " ++ lit "Thai" ++ lit ".") prompt = true
  ∧ includes (lit "Please ensure the recipe is " ++ lit "vegan" ++ lit ".") prompt = true.
Proof.
  pose proof (recipe_prompt_carries_inputs
                (VArray [str "eggs"; str "rice"]) (str "Thai") (str "vegan"))
    as (Hingr & Hcuisine & Hdiet).
  split; [exact Hingr|].
  split; [apply Hcuisine; reflexivity | apply Hdiet; reflexivity].
Defined.

(** X22: the video prompt names the recipe, and holds the line of main
    ingredients and the line of the cuisine type whenever those fields
    are truthy. *)
Theorem video_prompt_carries_inputs (recipeName ingredients cuisine : value) :
  let prompt := video_prompt recipeName ingredients cuisine in
  includes (lit "Recipe: " ++ to_string recipeName) prompt = true
  ∧ (truthy ingredients = true →
     includes (lit "Main ingredients: " ++ to_string ingredients) prompt = true)
  ∧ (truthy cuisine = true →
     includes (lit "Cuisine type: " ++ to_string cuisine) prompt = true).
Proof.
  cbn zeta. unfold video_prompt, unlines. rewrite !join_cons.
  split; [|split].
  - apply includes_app_r, includes_cons, includes_app_r, includes_cons,
      includes_app_l.
    apply (includes_app_r _ (lit "    ")), includes_refl.
  - intros ->.
    apply includes_app_r, includes_cons, includes_app_r, includes_cons,
      includes_app_r, includes_cons, includes_app_l, includes_app_r,
      includes_refl.
  - intros ->.
    apply includes_app_r, includes_cons, includes_app_r, includes_cons,
      includes_app_r, includes_cons, includes_app_r, includes_cons,
      includes_app_l, includes_app_r, includes_refl.
Qed.

Lemma video_prompt_carries_inputs_witness :
  let prompt := video_prompt (str "Pad Thai") (str "rice noodles") (str "Thai") in
  includes (lit "Recipe: " ++ lit "Pad Thai") prompt = true
  ∧ includes (lit "Main ingredients: " ++ lit "rice noodles") prompt = true
  ∧ includes (lit "Cuisine type: " ++ lit "Thai") prompt = true.
Proof.
  pose proof (video_prompt_carries_inputs
                (str "Pad Thai") (str "rice noodles") (str "Thai"))
    as (Hname & Hingr & Hcuisine).
  split; [exact Hname|].
  split; [apply Hingr; reflexivity | apply Hcuisine; reflexivity].
Defined.

(** ** The unused helper [imageToBase64] *)

Lemma imageToBase64_cases (filePath : string) (w : world) :
  imageToBase64 filePath w
  = match files w !! filePath with
    | Some data => (Ok (base64 data), w)
    | None => (Throw (enoent "open" filePath), w)
    end.
Proof.
  unfold imageToBase64, mbind, M_bind, readFileSync.
  by destruct (files w !! filePath).
Qed.

(** X23: [imageToBase64] changes nothing, and what it returns for the
    staged file is the very data the analyze-image handler, which
    encodes the file inline, sends to the provider with the file's MIME
    type. *)
Theorem handler_sends_what_imageToBase64_returns
    provider (file : file) (encoded : jsstring) (w w' : world) :
  imageToBase64 (path file) w = (Ok encoded, w') →
  w' = w
  ∧ provider_calls (snd (analyze_image provider (Some file) w))
    = provider_calls w
      ++ [[TextPart analyze_instruction; InlineData (mimetype file) encoded]].
Proof.
  rewrite imageToBase64_cases, analyze_image_cases.
  destruct (files w !! path file) as [data|]; [|done].
  intros [= <- <-]. split; [done|]. by destruct (provider _).
Qed.

Lemma handler_sends_what_imageToBase64_returns_witness :
  staged_world = staged_world
  ∧ provider_calls
      (snd (analyze_image (answering (lit "tomato")) (Some staged_jpeg) staged_world))
    = provider_calls staged_world
      ++ [[TextPart analyze_instruction;
           InlineData (mimetype staged_jpeg) (lit "/9j/4A==")]].
Proof.
  apply (handler_sends_what_imageToBase64_returns
           (answering (lit "tomato")) staged_jpeg (lit "/9j/4A==")
           staged_world staged_world).
  reflexivity.
Defined.

(** ** Uploads the middleware turns down *)

(** X24: for every upload turned down by the MIME-type check or by the
    size check the handler does not run: the inference provider is not
    called, nothing is staged, and what is sent is the framework's page
    for the middleware's error, not a response of the handler. *)
Theorem rejected_upload_never_reaches_provider
    provider (req : upload_request) (p : file_part) (w : world) :
  image req = Some p → rejected_by_upload p →
  let r := post_analyze_image provider req w in
  (∃ e, content (fst r) = ErrorPage e)
  ∧ provider_calls (snd r) = provider_calls w
  ∧ files (snd r) = files w.
Proof.
  intros Himg Hrej. destruct (single_rejects req p w Himg Hrej) as [e He].
  cbn zeta. unfold post_analyze_image. rewrite He. split; [by exists e | done].
Qed.

Lemma rejected_upload_never_reaches_provider_witness :
  let r := post_analyze_image (answering (lit "tomato")) text_upload staged_world in
  (∃ e, content (fst r) = ErrorPage e)
  ∧ provider_calls (snd r) = provider_calls staged_world
  ∧ files (snd r) = files staged_world.
Proof.
  apply (rejected_upload_never_reaches_provider
           (answering (lit "tomato")) text_upload text_part staged_world).
  - reflexivity.
  - left. reflexivity.
Defined.

(** ** Fields that do not convert to a string *)

Example ToString_examples :
  ToString (VArray [str "a"; VNull; VArray [VBool true; str "b"]; VObject []])
  = Ok (lit "a,,true,b,[object Object]")
  ∧ ToString (VObject [("valueOf", str "x")]) = Ok (lit "[object Object]")
  ∧ ToString (VObject [("toString", str "x")]) = Throw type_error
  ∧ ToString (VArray [str "a"; VObject [("name", VNull); ("toString", VNull)]])
    = Throw type_error.
Proof. by vm_compute. Qed.

(** X25: when a field the prompt interpolates does not convert to a
    string (an object with a [toString] property of its own, alone or
    inside an array), building the prompt throws: the handler answers
    500 with the [TypeError] message as [details], and the provider is
    not called. *)
Theorem unconvertible_field_is_500 provider (e : exn) (w : world) :
  (∀ req_body,
     truthy (prop req_body "ingredients") = true →
     recipe_template (prop req_body "ingredients") (prop req_body "cuisine")
                     (prop req_body "dietaryRestrictions") = Throw e →
     let r := generate_recipe provider req_body w in
     fst r = Ok (json 500 [("error", str "Failed to generate recipe");
                           ("details",
                            str "Cannot convert object to primitive value")])
     ∧ provider_calls (snd r) = provider_calls w)
  ∧ (∀ req_body,
       truthy (prop req_body "recipeName") = true →
       video_template (prop req_body "recipeName") (prop req_body "ingredients")
                      (prop req_body "cuisine") = Throw e →
       let r := find_recipe_video provider req_body w in
       fst r = Ok (json 500 [("error", str "Failed to find recipe video");
                             ("details",
                              str "Cannot convert object to primitive value")])
       ∧ provider_calls (snd r) = provider_calls w).
Proof.
  split.
  - intros req_body Hingr [Hconv _]%recipe_template_throws. cbn zeta.
    by rewrite generate_recipe_cases, Hingr, Hconv.
  - intros req_body Hname [Hconv _]%video_template_throws. cbn zeta.
    by rewrite find_recipe_video_cases, Hname, Hconv.
Qed.

Lemma unconvertible_field_is_500_witness :
  (let r := generate_recipe (answering (lit "Pancakes")) own_toString_body
              empty_world in
   fst r = Ok (json 500 [("error", str "Failed to generate recipe");
                         ("details",
                          str "Cannot convert object to primitive value")])
   ∧ provider_calls (snd r) = provider_calls empty_world)
  ∧ (let r := find_recipe_video (answering (lit "pad thai recipe"))
                nested_toString_body empty_world in
     fst r = Ok (json 500 [("error", str "Failed to find recipe video");
                           ("details",
                            str "Cannot convert object to primitive value")])
     ∧ provider_calls (snd r) = provider_calls empty_world).
Proof.
  split.
  - apply (proj1 (unconvertible_field_is_500 (answering (lit "Pancakes"))
                    type_error empty_world) own_toString_body);
      reflexivity.
  - apply (proj2 (unconvertible_field_is_500 (answering (lit "pad thai recipe"))
                    type_error empty_world) nested_toString_body);
      reflexivity.
Defined.
